(** * Game-time tracker: a shallow embedding of [main.go]

    The bot keeps, per Discord user, the list of finished game sessions and
    the games currently being played.  Three handlers touch that store
    ([presenceUpdate], [messageCreate]) and two methods persist it
    ([DataStore.save], [DataStore.load]).  All of them take the store's
    single [sync.Mutex].

    The embedding is a state-passing one.  A handler is a function from the
    state of the world (the store, its mutex, the data file, the clock) to an
    outcome: it returned, it parked forever on the mutex, or it panicked.
    What the Go runtime and the libraries provide (the clock, [encoding/json])
    is collected in the class [Runtime].

    Conventions:
    - One handler runs at a time, from a world in which it finds the mutex
      free or held.  Nobody else unlocks a mutex, so a [Lock] on a held
      mutex inside a handler that holds it itself never returns.
    - A [range] over a Go map visits the entries in an unspecified order;
      the model visits them in the order of [map_to_list].  The loops only
      delete the entry they are at, so the list taken when the loop starts
      is what the loop sees.
    - [*UserGameData] pointers held by a handler are modelled by the key of
      the record in [Users]: handlers keep them only while they hold the
      mutex, and nothing replaces the record meanwhile.
    - Log lines are not modelled, and [messageCreate] yields the data of
      its reply (the map [gamePlayTimes]) rather than the text that
      [formatDuration] renders from it.
    - A failed [ioutil.WriteFile] leaves the file as it was. *)

From Stdlib Require Import ZArith Lia Floats.
From Stdlib.Strings Require Import Byte.
From stdpp Require Import gmap strings list fin_maps pretty.

Open Scope Z_scope.

(** ** Machine integers and the [time] package *)

Module Int64.

Definition min : Z := -9223372036854775808.
Definition max : Z := 9223372036854775807.

(** Two's-complement wrap-around of Go's [int64] arithmetic. *)
Definition wrap (z : Z) : Z :=
  (z + 9223372036854775808) mod 18446744073709551616 - 9223372036854775808.

(** Saturation, as [Time.Sub] does on overflow. *)
Definition clamp (z : Z) : Z := Z.max min (Z.min max z).

Definition in_range (z : Z) : Prop := min <= z <= max.

End Int64.

(** Instants are nanosecond readings of the clock; a [time.Duration] is an
    [int64] count of nanoseconds.  A Go [time.Time] got from [time.Now]
    carries a wall and a monotonic reading, and [Sub] of two such values
    subtracts the monotonic ones, while the data file keeps the wall one;
    the model has one reading per instant, the two clocks being taken to
    agree. *)
Abbreviation instant := Z (only parsing).
Abbreviation duration := Z (only parsing).

Definition Second : duration := 1000000000.

(** [t.Sub(u)]: the difference, saturated to the range of [Duration]. *)
Definition Time_Sub (t u : instant) : duration := Int64.clamp (t - u).

(** [float64(i)] for an [int64] [i]. *)
Definition float64_of_int64 (i : Z) : float :=
  if i <? 0 then PrimFloat.opp (PrimFloat.of_uint63 (Uint63.of_Z (- i)))
  else PrimFloat.of_uint63 (Uint63.of_Z i).

(** [d.Seconds()]:
    [sec := d / Second; nsec := d % Second; float64(sec) + float64(nsec)/1e9]. *)
Definition Duration_Seconds (d : duration) : float :=
  let sec := Z.quot d Second in
  let nsec := Z.rem d Second in
  PrimFloat.add (float64_of_int64 sec)
    (PrimFloat.div (float64_of_int64 nsec) (float64_of_int64 1000000000)).

(** The conversion [time.Duration(f)] of a [float64]: the fraction is
    discarded.  A value outside [int64] (or a NaN) is implementation-defined
    in Go; amd64 yields the smallest [int64]. *)
Definition int64_of_float64 (f : float) : Z :=
  match Prim2SF f with
  | S754_zero _ => 0
  | S754_finite s m e =>
      let a := if 0 <=? e then Z.shiftl (Z.pos m) e else Z.shiftr (Z.pos m) (- e) in
      let v := if s then - a else a in
      if (Int64.min <=? v) && (v <=? Int64.max) then v else Int64.min
  | S754_infinity _ | S754_nan => Int64.min
  end.

(** ** The data model *)

(** [GameSession]: one finished session of one game. *)
Record GameSession := mkGameSession {
  GameName : string;
  StartTime : instant;
  EndTime : instant;
  Duration : float  (* seconds *)
}.

(** [UserGameData]: the sessions of a user, and the games being played now
    (game name to start time; the field is tagged [json:"-"]). *)
Record UserGameData := mkUserGameData {
  Sessions : list GameSession;
  ActiveGames : gmap string instant
}.

Definition newUserGameData : UserGameData :=
  {| Sessions := []; ActiveGames := ∅ |}.

(** What reaches the handlers from discordgo. *)
Inductive ActivityType :=
  | ActivityTypeGame
  | ActivityTypeStreaming
  | ActivityTypeListening
  | ActivityTypeWatching
  | ActivityTypeCustom
  | ActivityTypeCompeting.

Record Activity := mkActivity { Name : string; Kind : ActivityType }.

Record User := mkUser { ID : string; Username : string; Bot : bool }.

Record PresenceUpdate := mkPresenceUpdate {
  PresenceUser : User;
  Activities : list Activity
}.

Record MessageCreate := mkMessageCreate { Author : User; Content : string }.

Definition isGame (a : Activity) : bool :=
  match Kind a with ActivityTypeGame => true | _ => false end.

(** The errors [save] and [load] wrap. *)
Inductive error :=
  | ErrReadFile     (* "error reading data file" *)
  | ErrUnmarshal    (* "error unmarshaling data" *)
  | ErrMarshal      (* "error marshaling data" *)
  | ErrWriteFile.   (* "error writing data to file" *)

(** What [messageCreate] sends back to the channel. *)
Inductive Reply :=
  | NoGamesTracked                          (* "I haven't tracked any games for you yet!" *)
  | PlayTimes (gamePlayTimes : gmap string duration)
  | DataCleared                             (* "your game tracking data has been cleared!" *)
  | NothingToClear.                         (* "you don't have any game data to clear!" *)

(** ** The world a handler runs in *)

(** [Users] and [mu] are the two fields of the global [DataStore]; [mu] is
    [true] while the mutex is held.  [file] is the content of
    [game_data.json] if it exists, [disk_ok] whether reads and writes of it
    succeed, and [ticks] counts the readings of the clock taken so far. *)
Record World := mkWorld {
  Users : gmap string UserGameData;
  mu : bool;
  file : option (list byte);
  disk_ok : bool;
  ticks : nat
}.

Definition set_Users (f : gmap string UserGameData → gmap string UserGameData)
    (w : World) : World :=
  {| Users := f (Users w); mu := mu w; file := file w;
     disk_ok := disk_ok w; ticks := ticks w |}.

Definition set_mu (b : bool) (w : World) : World :=
  {| Users := Users w; mu := b; file := file w;
     disk_ok := disk_ok w; ticks := ticks w |}.

Definition set_file (c : option (list byte)) (w : World) : World :=
  {| Users := Users w; mu := mu w; file := c;
     disk_ok := disk_ok w; ticks := ticks w |}.

Definition tick (w : World) : World :=
  {| Users := Users w; mu := mu w; file := file w;
     disk_ok := disk_ok w; ticks := S (ticks w) |}.

(** What the Go runtime and [encoding/json] provide.  [time_Now n] is the
    [n]-th reading of the clock.  [json_MarshalIndent] receives what [save]
    hands it, the sessions of every user; [json_Unmarshal] yields a map of
    pointers, [None] standing for a JSON [null]. *)
Class Runtime := {
  time_Now : nat → instant;
  json_MarshalIndent : gmap string (list GameSession) → option (list byte);
  json_Unmarshal : list byte → option (gmap string (option (list GameSession)))
}.

(** ** Handlers as state transformers *)

Inductive Outcome (A : Type) :=
  | Returned (a : A) (w : World)   (* ran to its end *)
  | Blocked (w : World)            (* parked in [Lock] on a held mutex *)
  | Panicked (w : World).          (* run-time panic *)

Arguments Returned {A} a w.
Arguments Blocked {A} w.
Arguments Panicked {A} w.

Definition Go (A : Type) : Type := World → Outcome A.

Definition world_of {A} (o : Outcome A) : World :=
  match o with Returned _ w | Blocked w | Panicked w => w end.

Definition ret {A} (a : A) : Go A := fun w => Returned a w.

Definition bind {A B} (m : Go A) (k : A → Go B) : Go B :=
  fun w =>
    match m w with
    | Returned a w' => k a w'
    | Blocked w' => Blocked w'
    | Panicked w' => Panicked w'
    end.

Notation "x <- m ;; k" := (bind m (fun x => k))
  (at level 100, m at next level, right associativity, only parsing).
Notation "m ;;; k" := (bind m (fun _ => k))
  (at level 100, right associativity, only parsing).

Definition panic {A} : Go A := fun w => Panicked w.

(** A [for ... range] loop over a slice, or over the entries of a map. *)
Fixpoint forM_ {A} (l : list A) (body : A → Go unit) : Go unit :=
  match l with
  | [] => ret tt
  | x :: l' => body x ;;; forM_ l' body
  end.

(** The same, threading an accumulator (a local variable of the loop). *)
Fixpoint foldM {A S} (l : list A) (body : S → A → Go S) (s : S) : Go S :=
  match l with
  | [] => ret s
  | x :: l' => s' <- body s x ;; foldM l' body s'
  end.

(** [defer cleanup]: the cleanup runs when the body returns or panics; a
    body that never returns never reaches it. *)
Definition defer {A} (cleanup : Go unit) (body : Go A) : Go A :=
  fun w =>
    match body w with
    | Returned a w' =>
        match cleanup w' with
        | Returned _ w'' => Returned a w''
        | Blocked w'' => Blocked w''
        | Panicked w'' => Panicked w''
        end
    | Blocked w' => Blocked w'
    | Panicked w' => Panicked (world_of (cleanup w'))
    end.

(** [sync.Mutex] is not reentrant: [Lock] on a held mutex parks the caller
    until somebody unlocks it. *)
Definition mu_Lock : Go unit :=
  fun w => if mu w then Blocked w else Returned tt (set_mu true w).

(** [Unlock] of a mutex that is not held is a fatal error. *)
Definition mu_Unlock : Go unit :=
  fun w => if mu w then Returned tt (set_mu false w) else Panicked w.

Definition get_Users : Go (gmap string UserGameData) :=
  fun w => Returned (Users w) w.

(** [data.Users[userID] = r] *)
Definition store_user (userID : string) (r : UserGameData) : Go unit :=
  fun w => Returned tt (set_Users (insert userID r) w).

(** A write through the pointer [userData] held for [userID]. *)
Definition update_user (userID : string) (f : UserGameData → UserGameData)
    : Go unit :=
  fun w => Returned tt (set_Users (alter f userID) w).

(** A read through that pointer. *)
Definition read_user (userID : string) : Go UserGameData :=
  fun w =>
    match Users w !! userID with
    | Some r => Returned r w
    | None => Panicked w
    end.

Inductive ReadResult :=
  | ReadOk (dataBytes : list byte)
  | ReadNotExist
  | ReadFailed.

(** [ioutil.ReadFile(dataFilePath)] *)
Definition ioutil_ReadFile : Go ReadResult :=
  fun w =>
    match file w with
    | None => Returned ReadNotExist w
    | Some b => if disk_ok w then Returned (ReadOk b) w else Returned ReadFailed w
    end.

(** [ioutil.WriteFile(dataFilePath, dataBytes, 0644)]; [true] is an error. *)
Definition ioutil_WriteFile (dataBytes : list byte) : Go bool :=
  fun w =>
    if disk_ok w then Returned false (set_file (Some dataBytes) w)
    else Returned true w.

(** [m[k] += v] on a [map[string]time.Duration]. *)
Definition add_duration (k : string) (v : duration) (m : gmap string duration)
    : gmap string duration :=
  <[k := Int64.wrap (default 0 (m !! k) + v)]> m.

(** The first loop of the [!mygames] branch: whole seconds per session. *)
Definition sessionTotals (sessions : list GameSession) : gmap string duration :=
  fold_left
    (fun acc session =>
       add_duration (GameName session)
         (Int64.wrap (int64_of_float64 (Duration session) * Second)) acc)
    sessions ∅.

(** The map [currentActivities] built from a presence update. *)
Definition currentActivities (activities : list Activity) : gmap string bool :=
  fold_left
    (fun acc activity =>
       if isGame activity then <[Name activity := true]> acc else acc)
    activities ∅.

(** [currentActivities[gameName]]: a missing key reads as [false]. *)
Definition isCurrent (current : gmap string bool) (gameName : string) : bool :=
  default false (current !! gameName).

Section Program.

Context `{Runtime}.

(** [time.Now()] *)
Definition Now : Go instant :=
  fun w => Returned (time_Now (ticks w)) (tick w).

(** [func (ds *DataStore) save() error] *)
Definition save : Go (option error) :=
  mu_Lock ;;;
  defer mu_Unlock (
    users <- get_Users ;;
    let tempUsers := Sessions <$> users in
    match json_MarshalIndent tempUsers with
    | None => ret (Some ErrMarshal)
    | Some dataBytes =>
        failed <- ioutil_WriteFile dataBytes ;;
        if failed : bool then ret (Some ErrWriteFile) else ret None
    end).

(** The body of the loop that ends [load]; the assignment to
    [userData.ActiveGames] dereferences the pointer read from the file. *)
Definition load_entry (entry : string * option (list GameSession)) : Go unit :=
  match entry.2 with
  | None => panic
  | Some sessions =>
      store_user entry.1 {| Sessions := sessions; ActiveGames := ∅ |}
  end.

(** [func (ds *DataStore) load() error] *)
Definition load : Go (option error) :=
  mu_Lock ;;;
  defer mu_Unlock (
    r <- ioutil_ReadFile ;;
    match r with
    | ReadNotExist => ret None
    | ReadFailed => ret (Some ErrReadFile)
    | ReadOk dataBytes =>
        match json_Unmarshal dataBytes with
        | None => ret (Some ErrUnmarshal)
        | Some tempUsers =>
            forM_ (map_to_list tempUsers) load_entry ;;;
            ret None
        end
    end).

(** One round of the loop "Identify games that have stopped". *)
Definition closeGame (userID : string) (current : gmap string bool)
    (entry : string * instant) : Go unit :=
  let gameName := entry.1 in
  let startTime := entry.2 in
  if isCurrent current gameName then ret tt
  else
    endTime <- Now ;;
    let session :=
      {| GameName := gameName; StartTime := startTime; EndTime := endTime;
         Duration := Duration_Seconds (Time_Sub endTime startTime) |} in
    update_user userID (fun userData =>
      {| Sessions := Sessions userData ++ [session];
         ActiveGames := delete gameName (ActiveGames userData) |}) ;;;
    save ;;;
    ret tt.

(** One round of the loop "Identify games that have started". *)
Definition openGame (userID : string) (activity : Activity) : Go unit :=
  if isGame activity then
    userData <- read_user userID ;;
    match ActiveGames userData !! Name activity with
    | Some _ => ret tt
    | None =>
        now <- Now ;;
        update_user userID (fun userData =>
          {| Sessions := Sessions userData;
             ActiveGames := <[Name activity := now]> (ActiveGames userData) |})
    end
  else ret tt.

(** [func presenceUpdate(s *discordgo.Session, p *discordgo.PresenceUpdate)] *)
Definition presenceUpdate (p : PresenceUpdate) : Go unit :=
  if Bot (PresenceUser p) then ret tt
  else
    let userID := ID (PresenceUser p) in
    mu_Lock ;;;
    defer mu_Unlock (
      users <- get_Users ;;
      match users !! userID with
      | Some _ => ret tt
      | None => store_user userID newUserGameData
      end ;;;
      let current := currentActivities (Activities p) in
      userData <- read_user userID ;;
      forM_ (map_to_list (ActiveGames userData)) (closeGame userID current) ;;;
      forM_ (Activities p) (openGame userID)).

(** One round of the loop "Add currently active games to the total". *)
Definition addActive (gamePlayTimes : gmap string duration)
    (entry : string * instant) : Go (gmap string duration) :=
  now <- Now ;;
  ret (add_duration entry.1 (Time_Sub now entry.2) gamePlayTimes).

(** [func messageCreate(s *discordgo.Session, m *discordgo.MessageCreate)];
    [self] is [s.State.User.ID].  The result is what is sent to the channel. *)
Definition messageCreate (self : string) (m : MessageCreate) : Go (option Reply) :=
  if String.eqb (ID (Author m)) self then ret None
  else if String.eqb (Content m) "!mygames" then
    let userID := ID (Author m) in
    mu_Lock ;;;
    defer mu_Unlock (
      users <- get_Users ;;
      match users !! userID with
      | None => ret (Some NoGamesTracked)
      | Some userData =>
          if (length (Sessions userData) =? 0)%nat then ret (Some NoGamesTracked)
          else
            gamePlayTimes <-
              foldM (map_to_list (ActiveGames userData)) addActive
                (sessionTotals (Sessions userData)) ;;
            ret (Some (PlayTimes gamePlayTimes))
      end)
  else if String.eqb (Content m) "!cleargames" then
    let userID := ID (Author m) in
    mu_Lock ;;;
    defer mu_Unlock (
      users <- get_Users ;;
      match users !! userID with
      | Some _ =>
          store_user userID newUserGameData ;;;
          save ;;;
          ret (Some DataCleared)
      | None => ret (Some NothingToClear)
      end)
  else ret None.

(** The store [init] builds before it calls [load]. *)
Definition initial (content : option (list byte)) (healthy : bool) : World :=
  {| Users := ∅; mu := false; file := content; disk_ok := healthy; ticks := 0 |}.

End Program.

(** ** The text of the replies *)

Definition Minute : duration := 60 * Second.
Definition Hour : duration := 60 * Minute.

(** [d.Minutes()]:
    [min := d / Minute; nsec := d % Minute; float64(min) + float64(nsec)/(60*1e9)]. *)
Definition Duration_Minutes (d : duration) : float :=
  let min := Z.quot d Minute in
  let nsec := Z.rem d Minute in
  PrimFloat.add (float64_of_int64 min)
    (PrimFloat.div (float64_of_int64 nsec) (float64_of_int64 60000000000)).

(** [d.Hours()]:
    [hour := d / Hour; nsec := d % Hour; float64(hour) + float64(nsec)/(60*60*1e9)]. *)
Definition Duration_Hours (d : duration) : float :=
  let hour := Z.quot d Hour in
  let nsec := Z.rem d Hour in
  PrimFloat.add (float64_of_int64 hour)
    (PrimFloat.div (float64_of_int64 nsec) (float64_of_int64 3600000000000)).

(** [func joinStrings(s []string, sep string) string] *)
Definition joinStrings (s : list string) (sep : string) : string :=
  match s with
  | [] => ""
  | [x] => x
  | x :: rest => fold_left (fun result y => result +:+ (sep +:+ y)) rest x
  end.

(** [fmt.Sprintf] with the verb [%d] and a one-letter unit. *)
Definition Sprintf_unit (n : Z) (unit : string) : string := pretty n +:+ unit.

(** [func formatDuration(d time.Duration) string]; [int(x)] is the
    conversion of a [float64] to the 64-bit [int], and [%] keeps the sign of
    the dividend. *)
Definition formatDuration (d : duration) : string :=
  let days := int64_of_float64 (PrimFloat.div (Duration_Hours d) (float64_of_int64 24)) in
  let hours := Z.rem (int64_of_float64 (Duration_Hours d)) 24 in
  let minutes := Z.rem (int64_of_float64 (Duration_Minutes d)) 60 in
  let seconds := Z.rem (int64_of_float64 (Duration_Seconds d)) 60 in
  let parts := [] in
  let parts := if 0 <? days then parts ++ [Sprintf_unit days "d"] else parts in
  let parts := if 0 <? hours then parts ++ [Sprintf_unit hours "h"] else parts in
  let parts := if 0 <? minutes then parts ++ [Sprintf_unit minutes "m"] else parts in
  let parts :=
    if (0 <? seconds) || (length parts =? 0)%nat
    then parts ++ [Sprintf_unit seconds "s"] else parts in
  joinStrings parts " ".

(** The line feed that ends the lines of a report. *)
Definition newline : string := String (Ascii.ascii_of_nat 10) EmptyString.

(** One line of the report:  [- **game**: total]. *)
Definition reportLine (entry : string * duration) : string :=
  "- **" +:+ entry.1 +:+ "**: " +:+ formatDuration entry.2 +:+ newline.

(** The text [messageCreate] sends to the channel for each of its replies;
    the lines of a report come in the order the map is ranged over. *)
Definition replyText (username : string) (r : Reply) : string :=
  match r with
  | NoGamesTracked =>
      "Hey " +:+ username +:+ ", I haven't tracked any games for you yet!"
  | PlayTimes gamePlayTimes =>
      fold_left (fun response entry => response +:+ reportLine entry)
        (map_to_list gamePlayTimes)
        ("Here are your tracked game play times, " +:+ username +:+ ":" +:+ newline)
  | DataCleared =>
      "Hey " +:+ username +:+ ", your game tracking data has been cleared!"
  | NothingToClear =>
      "Hey " +:+ username +:+ ", you don't have any game data to clear!"
  end.

(** ** A runtime to run the model on concrete inputs

    [Demo.runtime] fixes a clock that advances by one second per reading and a
    codec for the data file.  The codec is a stand-in for [encoding/json]: a
    length-prefixed binary layout of the same tree (user, null or sessions,
    and per session the name, both instants and the duration). *)

Module Demo.

Definition byte_of_Z (z : Z) : byte :=
  default x00 (Byte.of_N (Z.to_N (z mod 256))).

Fixpoint put_le (n : nat) (z : Z) : list byte :=
  match n with
  | O => []
  | S n' => byte_of_Z z :: put_le n' (z / 256)
  end.

Fixpoint get_le (n : nat) (bs : list byte) : option (Z * list byte) :=
  match n with
  | O => Some (0, bs)
  | S n' =>
      match bs with
      | [] => None
      | b :: bs' =>
          '(hi, rest) ← get_le n' bs';
          Some (Z.of_N (Byte.to_N b) + 256 * hi, rest)
      end
  end.

Definition put_Z (z : Z) : list byte := put_le 8 (z mod 18446744073709551616).

Definition get_Z (bs : list byte) : option (Z * list byte) :=
  '(u, rest) ← get_le 8 bs;
  Some (Int64.wrap u, rest).

Definition put_string (s : string) : list byte :=
  put_Z (Z.of_nat (String.length s)) ++ String.list_byte_of_string s.

Definition get_string (bs : list byte) : option (string * list byte) :=
  '(n, rest) ← get_Z bs;
  if (0 <=? n) && (n <=? Z.of_nat (length rest))
  then Some (String.string_of_list_byte (take (Z.to_nat n) rest), drop (Z.to_nat n) rest)
  else None.

Definition put_float (f : float) : list byte :=
  match Prim2SF f with
  | S754_zero s => [if s then x01 else x00]
  | S754_infinity s => [if s then x03 else x02]
  | S754_nan => [x04]
  | S754_finite s m e => (if s then x06 else x05) :: put_Z (Z.pos m) ++ put_Z e
  end.

Definition get_float (bs : list byte) : option (float * list byte) :=
  match bs with
  | x00 :: rest => Some (SF2Prim (S754_zero false), rest)
  | x01 :: rest => Some (SF2Prim (S754_zero true), rest)
  | x02 :: rest => Some (SF2Prim (S754_infinity false), rest)
  | x03 :: rest => Some (SF2Prim (S754_infinity true), rest)
  | x04 :: rest => Some (SF2Prim S754_nan, rest)
  | b :: rest =>
      match b with
      | x05 | x06 =>
          '(m, rest) ← get_Z rest;
          '(e, rest) ← get_Z rest;
          match m with
          | Z.pos p =>
              Some (SF2Prim (S754_finite (if b is x06 then true else false) p e), rest)
          | _ => None
          end
      | _ => None
      end
  | [] => None
  end.

Definition put_session (s : GameSession) : list byte :=
  put_string (GameName s) ++ put_Z (StartTime s) ++ put_Z (EndTime s)
    ++ put_float (Duration s).

Definition get_session (bs : list byte) : option (GameSession * list byte) :=
  '(name, rest) ← get_string bs;
  '(t0, rest) ← get_Z rest;
  '(t1, rest) ← get_Z rest;
  '(d, rest) ← get_float rest;
  Some ({| GameName := name; StartTime := t0; EndTime := t1; Duration := d |}, rest).

(** [n] items in a row. *)
Fixpoint get_many {A} (get : list byte → option (A * list byte)) (n : nat)
    (bs : list byte) : option (list A * list byte) :=
  match n with
  | O => Some ([], bs)
  | S n' =>
      '(x, rest) ← get bs;
      '(xs, rest) ← get_many get n' rest;
      Some (x :: xs, rest)
  end.

Definition put_sessions (l : list GameSession) : list byte :=
  put_Z (Z.of_nat (length l)) ++ concat (put_session <$> l).

Definition get_sessions (bs : list byte) : option (list GameSession * list byte) :=
  '(n, rest) ← get_Z bs;
  if (0 <=? n) && (n <=? Z.of_nat (length rest))
  then get_many get_session (Z.to_nat n) rest
  else None.

(** A user of the file: the key, then [x01] and the sessions, or [x00] for
    a null record. *)
Definition put_user (entry : string * option (list GameSession)) : list byte :=
  put_string entry.1 ++
  match entry.2 with
  | None => [x00]
  | Some l => x01 :: put_sessions l
  end.

Definition get_user (bs : list byte)
    : option ((string * option (list GameSession)) * list byte) :=
  '(userID, rest) ← get_string bs;
  match rest with
  | x00 :: rest => Some ((userID, None), rest)
  | x01 :: rest =>
      '(l, rest) ← get_sessions rest;
      Some ((userID, Some l), rest)
  | _ => None
  end.

Definition put_users (l : list (string * option (list GameSession))) : list byte :=
  put_Z (Z.of_nat (length l)) ++ concat (put_user <$> l).

Definition encode (tempUsers : gmap string (list GameSession)) : option (list byte) :=
  Some (put_users (prod_map id Some <$> map_to_list tempUsers)).

Definition decode (bs : list byte)
    : option (gmap string (option (list GameSession))) :=
  '(n, rest) ← get_Z bs;
  if (0 <=? n) && (n <=? Z.of_nat (length rest))
  then
    '(l, rest) ← get_many get_user (Z.to_nat n) rest;
    match rest with
    | [] => Some (list_to_map l)
    | _ => None
    end
  else None.

Definition runtime : Runtime :=
  {| time_Now := fun n => Second * Z.of_nat (S n);
     json_MarshalIndent := encode;
     json_Unmarshal := decode |}.

Definition alice : User := {| ID := "1001"; Username := "alice"; Bot := false |}.

Definition playing (names : list string) : PresenceUpdate :=
  {| PresenceUser := alice;
     Activities := (fun n => {| Name := n; Kind := ActivityTypeGame |}) <$> names |}.

Definition says (text : string) : MessageCreate :=
  {| Author := alice; Content := text |}.

(** A store that holds one record for [alice]. *)
Definition store (sessions : list GameSession) (active : gmap string instant)
    (content : option (list byte)) : World :=
  {| Users := {[ "1001" := {| Sessions := sessions; ActiveGames := active |} ]};
     mu := false; file := content; disk_ok := true; ticks := 0 |}.

(** One and a half seconds of chess. *)
Definition chess : GameSession :=
  {| GameName := "Chess"; StartTime := 0; EndTime := 1500000000;
     Duration := Duration_Seconds (Time_Sub 1500000000 0) |}.

(** Half a second of chess, twice. *)
Definition blitz (startTime : instant) : GameSession :=
  {| GameName := "Chess"; StartTime := startTime;
     EndTime := startTime + 500000000;
     Duration := Duration_Seconds (Time_Sub (startTime + 500000000) startTime) |}.

(** The store of a fresh process after alice has started a game of chess:
    one clock reading taken, the timer at the first reading. *)
Definition started : World :=
  {| Users := {[ "1001" := {| Sessions := [];
                              ActiveGames := {[ "Chess" := 1000000000 ]} |} ]};
     mu := false; file := None; disk_ok := true; ticks := 1 |}.

(** The file [encode] writes for a store that holds [chess] for alice. *)
Definition saved : list byte :=
  default [] (encode {[ "1001" := [chess] ]}).

(** The store of a process that found that file at start-up, before and
    after alice has started a game of Go. *)
Definition restarted : World :=
  {| Users := {[ "1001" := {| Sessions := [chess]; ActiveGames := ∅ |} ]};
     mu := false; file := Some saved; disk_ok := true; ticks := 0 |}.

Definition resumed : World :=
  {| Users := {[ "1001" := {| Sessions := [chess];
                              ActiveGames := {[ "Go" := 1000000000 ]} |} ]};
     mu := false; file := Some saved; disk_ok := true; ticks := 1 |}.

(** A file that is not a document of the codec. *)
Definition garbage : list byte := [x00].

End Demo.

(** * Properties of the program *)

(** ** Views of the store used in the statements *)

Definition sessions_of (userID : string) (w : World) : list GameSession :=
  default [] (Sessions <$> Users w !! userID).

Definition active_of (userID : string) (w : World) : gmap string instant :=
  default ∅ (ActiveGames <$> Users w !! userID).

(** The names of the game-typed activities of a presence update. *)
Definition gameNames (p : PresenceUpdate) : gset string :=
  list_to_set (Name <$> filter (fun a => isGame a = true) (Activities p)).

(** What [load] leaves of a record: the sessions, and no game in progress. *)
Definition reloaded (r : UserGameData) : UserGameData :=
  {| Sessions := Sessions r; ActiveGames := ∅ |}.

(** An invariant kept in every outcome: returned, blocked or panicked. *)
Definition preserves {A} (I : World → Prop) (m : Go A) : Prop :=
  ∀ w, I w → I (world_of (m w)).

(** The entry points of the program. *)
Inductive Operation :=
  | OnPresence (p : PresenceUpdate)
  | OnMessage (self : string) (m : MessageCreate)
  | Save
  | Load.

Section Run.

Context `{Runtime}.

(** The world an operation leaves behind. *)
Definition run (op : Operation) (w : World) : World :=
  match op with
  | OnPresence p => world_of (presenceUpdate p w)
  | OnMessage self m => world_of (messageCreate self m w)
  | Save => world_of (save w)
  | Load => world_of (load w)
  end.

(** Every open timer was started at an earlier reading of the clock. *)
Definition timers_from_clock (w : World) : Prop :=
  ∀ userID r gameName startTime,
    Users w !! userID = Some r →
    ActiveGames r !! gameName = Some startTime →
    ∃ k, (k < ticks w)%nat ∧ startTime = time_Now k.

(** The clock never runs backwards. *)
Definition monotone_clock : Prop := ∀ n, time_Now n <= time_Now (S n).

(** What the merge loop of [load] does to the store, entry by entry. *)
Definition merge_loaded (l : list (string * option (list GameSession)))
    (users : gmap string UserGameData) : gmap string UserGameData :=
  fold_left
    (fun users entry =>
       match entry.2 with
       | Some sessions =>
           <[entry.1 := {| Sessions := sessions; ActiveGames := ∅ |}]> users
       | None => users
       end)
    l users.

(** The session [closeGame] builds for a game that has stopped. *)
Definition stopped (gameName : string) (startTime endTime : instant) : GameSession :=
  {| GameName := gameName; StartTime := startTime; EndTime := endTime;
     Duration := Duration_Seconds (Time_Sub endTime startTime) |}.

(** What [closeGame] does to the record: the session is appended and the
    timer removed. *)
Definition close_timer (gameName : string) (session : GameSession)
    (userData : UserGameData) : UserGameData :=
  {| Sessions := Sessions userData ++ [session];
     ActiveGames := delete gameName (ActiveGames userData) |}.

(** The world [w] with the record of one user replaced, [n] clock readings
    taken and the mutex as [held] says. *)
Definition with_record (userID : string) (r : UserGameData) (n : nat)
    (held : bool) (w : World) : World :=
  {| Users := <[userID := r]> (Users w); mu := held; file := file w;
     disk_ok := disk_ok w; ticks := n |}.

(** The world in which the two loops of [presenceUpdate] start: the mutex
    is held and the user has a record (the one it had, or a fresh one). *)
Definition entered (userID : string) (w : World) : World :=
  with_record userID
    {| Sessions := sessions_of userID w; ActiveGames := active_of userID w |}
    (ticks w) true w.

(** What the opening loop of [presenceUpdate] does to the open timers,
    with the number of clock readings taken. *)
Fixpoint openAll (activities : list Activity) (active : gmap string instant)
    (n : nat) : gmap string instant * nat :=
  match activities with
  | [] => (active, n)
  | a :: rest =>
      if isGame a then
        match active !! Name a with
        | Some _ => openAll rest active n
        | None => openAll rest (<[Name a := time_Now n]> active) (S n)
        end
      else openAll rest active n
  end.

(** The world after [n] more readings of the clock. *)
Definition ticked (n : nat) (w : World) : World :=
  {| Users := Users w; mu := mu w; file := file w;
     disk_ok := disk_ok w; ticks := n + ticks w |}.

(** What the loop over the open timers adds to a report. *)
Fixpoint addAllActive (l : list (string * instant))
    (gamePlayTimes : gmap string duration) (n : nat) : gmap string duration :=
  match l with
  | [] => gamePlayTimes
  | entry :: rest =>
      addAllActive rest
        (add_duration entry.1 (Time_Sub (time_Now n) entry.2) gamePlayTimes) (S n)
  end.

End Run.

(** ** The life of the process *)

(** What [init] leaves behind: [log.Fatal] when the token is not set, or
    the outcome of [data.load()] on the fresh store (its error is logged
    and dropped). *)
Inductive Startup :=
  | Fatal
  | Booted (o : Outcome (option error)).


Section Lifecycle.

Context `{Runtime}.

(** [func init()]; [botToken] is the value of [DISCORD_BOT_TOKEN]. *)
Definition init (botToken : string) (content : option (list byte))
    (healthy : bool) : Startup :=
  if String.eqb botToken "" then Fatal
  else Booted (load (initial content healthy)).



End Lifecycle.

(** The text of a whole number of seconds, field by field in integer
    arithmetic: what [formatDuration] is compared with. *)
Definition clockText (s : Z) : string :=
  let days := s / 86400 in
  let hours := (s / 3600) mod 24 in
  let minutes := (s / 60) mod 60 in
  let seconds := s mod 60 in
  let parts := [] in
  let parts := if 0 <? days then parts ++ [Sprintf_unit days "d"] else parts in
  let parts := if 0 <? hours then parts ++ [Sprintf_unit hours "h"] else parts in
  let parts := if 0 <? minutes then parts ++ [Sprintf_unit minutes "m"] else parts in
  let parts :=
    if (0 <? seconds) || (length parts =? 0)%nat
    then parts ++ [Sprintf_unit seconds "s"] else parts in
  String.concat " " parts.

(** [check] holds of [from], [from + 1], ... ([n] numbers). *)
Fixpoint all_from (check : Z → bool) (n : nat) (from : Z) : bool :=
  match n with
  | O => true
  | S n' => check from && all_from check n' (from + 1)
  end.

(** [x] occurs in [s]. *)
Definition occurs_in (x s : string) : Prop :=
  ∃ before after, s = before +:+ x +:+ after.

(** The amount the report adds for one finished session. *)
Definition wholeSeconds (session : GameSession) : duration :=
  int64_of_float64 (Duration session) * Second.

(** The sum of [wholeSeconds] over the sessions of one game. *)
Definition sumWholeSeconds (gameName : string) (sessions : list GameSession) : Z :=
  foldr Z.add 0
    (wholeSeconds <$> filter (fun s => GameName s = gameName) sessions).

(** ** Arithmetic *)

Lemma wrap_in_range z : Int64.in_range z → Int64.wrap z = z.
Proof.
  unfold Int64.in_range, Int64.wrap, Int64.min, Int64.max. intros Hz.
  rewrite Z.mod_small; lia.
Qed.

Lemma clamp_in_range z : Int64.in_range z → Int64.clamp z = z.
Proof. unfold Int64.in_range, Int64.clamp. lia. Qed.

Lemma clamp_nonneg z : 0 <= z → 0 <= Int64.clamp z.
Proof. unfold Int64.clamp, Int64.min, Int64.max. lia. Qed.

Lemma Time_Sub_nonneg t u : u <= t → 0 <= Time_Sub t u.
Proof. intros. apply clamp_nonneg. lia. Qed.

(** ** The invariant calculus *)

Section Calculus.

Context {I : World → Prop}.

Lemma preserves_ret {A} (a : A) : preserves I (ret a).
Proof. by intros w. Qed.

Lemma preserves_panic {A} : preserves I (@panic A).
Proof. by intros w. Qed.

Lemma preserves_bind {A B} (m : Go A) (k : A → Go B) :
  preserves I m → (∀ a, preserves I (k a)) → preserves I (bind m k).
Proof.
  intros Hm Hk w Hw. unfold bind. specialize (Hm w Hw).
  destruct (m w) as [a w'|w'|w']; simpl in *; [by apply Hk | done | done].
Qed.

Lemma preserves_forM {A} (l : list A) (body : A → Go unit) :
  (∀ x, x ∈ l → preserves I (body x)) → preserves I (forM_ l body).
Proof.
  induction l as [|x l IH]; intros Hbody; simpl.
  - apply preserves_ret.
  - apply preserves_bind.
    + apply Hbody. by left.
    + intros _. apply IH. intros y Hy. apply Hbody. by right.
Qed.

Lemma preserves_foldM {A S} (l : list A) (body : S → A → Go S) (s : S) :
  (∀ s x, x ∈ l → preserves I (body s x)) → preserves I (foldM l body s).
Proof.
  revert s. induction l as [|x l IH]; intros s Hbody; simpl.
  - apply preserves_ret.
  - apply preserves_bind.
    + apply Hbody. by left.
    + intros s'. apply IH. intros s'' y Hy. apply Hbody. by right.
Qed.

Lemma preserves_defer {A} (cleanup : Go unit) (body : Go A) :
  preserves I body → preserves I cleanup → preserves I (defer cleanup body).
Proof.
  intros Hb Hc w Hw. unfold defer. specialize (Hb w Hw).
  destruct (body w) as [a w'|w'|w']; simpl in *.
  - specialize (Hc w' Hb). by destruct (cleanup w').
  - done.
  - by apply Hc.
Qed.

End Calculus.

(** ** [save] and [load] *)

Section Persistence.

Context `{RT : Runtime}.

(** Under the held mutex [save] parks in its own [Lock]. *)
Lemma save_held w : mu w = true → save w = Blocked w.
Proof. intros Hmu. unfold save, bind, mu_Lock. by rewrite Hmu. Qed.

(** With the mutex free [save] returns, and this is what it returns. *)
Lemma save_free w :
  mu w = false →
  save w =
    match json_MarshalIndent (Sessions <$> Users w) with
    | None => Returned (Some ErrMarshal) w
    | Some dataBytes =>
        if disk_ok w then Returned None (set_file (Some dataBytes) w)
        else Returned (Some ErrWriteFile) w
    end.
Proof.
  destruct w as [users m content healthy n]; simpl; intros ->.
  unfold save, bind, defer, mu_Lock, get_Users, ioutil_WriteFile; simpl.
  destruct (json_MarshalIndent (Sessions <$> users)); simpl;
    [destruct healthy|]; reflexivity.
Qed.

Lemma save_Users w : Users (world_of (save w)) = Users w.
Proof.
  destruct (mu w) eqn:Hmu.
  - by rewrite save_held.
  - rewrite save_free by done.
    destruct (json_MarshalIndent _); [destruct (disk_ok w)|]; reflexivity.
Qed.

Lemma save_ticks w : ticks (world_of (save w)) = ticks w.
Proof.
  destruct (mu w) eqn:Hmu.
  - by rewrite save_held.
  - rewrite save_free by done.
    destruct (json_MarshalIndent _); [destruct (disk_ok w)|]; reflexivity.
Qed.

(** The merge loop of [load]: it stores the records in order, and panics at
    the first null one. *)
Lemma load_entries_ok l w :
  Forall (fun entry => is_Some entry.2) l →
  forM_ l load_entry w = Returned tt (set_Users (merge_loaded l) w).
Proof.
  revert w. induction l as [|[userID [sessions|]] l IH]; intros w Hl.
  - by destruct w.
  - inversion_clear Hl as [|? ? _ Hl']. simpl. unfold bind, load_entry; simpl.
    unfold store_user. rewrite IH by done. by destruct w.
  - inversion_clear Hl as [|? ? Hnone _]. by destruct Hnone.
Qed.

Lemma load_entries_null l1 userID l2 w :
  Forall (fun entry => is_Some entry.2) l1 →
  forM_ (l1 ++ (userID, None) :: l2) load_entry w
  = Panicked (set_Users (merge_loaded l1) w).
Proof.
  revert w. induction l1 as [|[u [sessions|]] l1 IH]; intros w Hl.
  - by destruct w.
  - inversion_clear Hl as [|? ? _ Hl']. simpl. unfold bind, load_entry; simpl.
    unfold store_user. rewrite IH by done. by destruct w.
  - inversion_clear Hl as [|? ? Hnone _]. by destruct Hnone.
Qed.

Lemma merge_loaded_notin l users userID :
  userID ∉ l.*1 → merge_loaded l users !! userID = users !! userID.
Proof.
  revert users. induction l as [|[u o] l IH]; intros users Hnotin; [done|].
  rewrite fmap_cons, not_elem_of_cons in Hnotin. destruct Hnotin as [Hne Hnotin].
  unfold merge_loaded in *. simpl in *. rewrite IH by done.
  destruct o; [by rewrite lookup_insert_ne|done].
Qed.

Lemma merge_loaded_in l users userID sessions :
  NoDup l.*1 → (userID, Some sessions) ∈ l →
  merge_loaded l users !! userID
  = Some {| Sessions := sessions; ActiveGames := ∅ |}.
Proof.
  revert users. induction l as [|[u o] l IH]; intros users Hnodup Hin.
  - by apply elem_of_nil in Hin.
  - rewrite fmap_cons in Hnodup. apply NoDup_cons in Hnodup as [Hfresh Hnodup].
    apply elem_of_cons in Hin as [Heq|Hin].
    + injection Heq as <- <-.
      change (merge_loaded l
        (<[userID := {| Sessions := sessions; ActiveGames := ∅ |}]> users)
        !! userID = Some {| Sessions := sessions; ActiveGames := ∅ |}).
      rewrite merge_loaded_notin by done. apply lookup_insert_eq.
    + change (merge_loaded ((u, o) :: l) users) with
        (merge_loaded l (match o with
                         | Some s => <[u := {| Sessions := s; ActiveGames := ∅ |}]> users
                         | None => users
                         end)).
      by apply IH.
Qed.

Lemma merge_loaded_dom l users : dom users ⊆ dom (merge_loaded l users).
Proof.
  revert users. induction l as [|[u o] l IH]; intros users; [done|].
  change (merge_loaded ((u, o) :: l) users) with
    (merge_loaded l (match o with
                     | Some s => <[u := {| Sessions := s; ActiveGames := ∅ |}]> users
                     | None => users
                     end)).
  etrans; [|apply IH]. destruct o; [|done]. rewrite dom_insert_L. set_solver.
Qed.

(** With the mutex free [load] never blocks, and this is what it does. *)
Lemma load_free w :
  mu w = false →
  load w =
    match file w with
    | None => Returned None w
    | Some dataBytes =>
        if disk_ok w then
          match json_Unmarshal dataBytes with
          | None => Returned (Some ErrUnmarshal) w
          | Some tempUsers =>
              match forM_ (map_to_list tempUsers) load_entry (set_mu true w) with
              | Returned _ w' => Returned None (set_mu false w')
              | Blocked w' => Blocked w'
              | Panicked w' => Panicked (set_mu false w')
              end
          end
        else Returned (Some ErrReadFile) w
    end.
Proof.
  destruct w as [users m content healthy n]; simpl; intros ->.
  unfold load, bind, defer, mu_Lock, ioutil_ReadFile; simpl.
  destruct content as [dataBytes|]; [|reflexivity]; simpl.
  destruct healthy; [|reflexivity]; simpl.
  destruct (json_Unmarshal dataBytes) as [tempUsers|]; [|reflexivity]; simpl.
  assert (Hheld : ∀ l w, mu w = true →
            mu (world_of (forM_ l load_entry w)) = true).
  { induction l as [|[u [s|]] l IHl]; intros w Hw; simpl; [done| |done].
    unfold bind, load_entry, store_user; simpl. by apply IHl. }
  specialize (Hheld (map_to_list tempUsers) (mkWorld users true (Some dataBytes) true n) eq_refl).
  destruct (forM_ _ _ _) as [[] w'|w'|w']; simpl in *; unfold mu_Unlock;
    rewrite ?Hheld; reflexivity.
Qed.

Lemma load_held w : mu w = true → load w = Blocked w.
Proof. intros Hmu. unfold load, bind, mu_Lock. by rewrite Hmu. Qed.

End Persistence.

Section RoundTrip.

Context `{RT : Runtime}.

(** C5.  [load] after [save] gives back the sessions and no open timer.
    Let the mutex be free and the disk healthy, and let the JSON library
    read back the document it wrote for this store.  Then [save] succeeds
    and writes that document, and [load], run on any store [w2] that sees
    the written file (the same process, or a restarted one), succeeds: every
    user of [w] is there with exactly the sessions it had in [w], in the same
    order and with the same fields, and with an empty map of open timers,
    whatever was open in [w].  On the empty store of a fresh process the
    result holds these records and nothing else. *)
Theorem save_load_roundtrip (w w2 : World) (dataBytes : list byte) :
  mu w = false → disk_ok w = true →
  json_MarshalIndent (Sessions <$> Users w) = Some dataBytes →
  json_Unmarshal dataBytes = Some (Some <$> (Sessions <$> Users w)) →
  mu w2 = false → disk_ok w2 = true → file w2 = Some dataBytes →
  save w = Returned None (set_file (Some dataBytes) w) ∧
  ∃ w3, load w2 = Returned None w3 ∧
    (∀ userID r, Users w !! userID = Some r →
       Users w3 !! userID = Some (reloaded r) ∧
       sessions_of userID w3 = sessions_of userID w ∧
       active_of userID w3 = ∅) ∧
    (Users w2 = ∅ → Users w3 = reloaded <$> Users w).
Proof.
  intros Hmu Hdisk Hmarshal Hunmarshal Hmu2 Hdisk2 Hfile2. split.
  { by rewrite save_free, Hmarshal, Hdisk. }
  set (tempUsers := Some <$> (Sessions <$> Users w)) in *.
  assert (Hsome : Forall (fun entry => is_Some entry.2) (map_to_list tempUsers)).
  { apply Forall_forall. intros [userID o] Hin.
    apply elem_of_map_to_list in Hin. unfold tempUsers in Hin.
    rewrite !lookup_fmap in Hin. destruct (Users w !! userID); by simplify_eq/=. }
  assert (Hin : ∀ userID r, Users w !! userID = Some r →
            (userID, Some (Sessions r)) ∈ map_to_list tempUsers).
  { intros userID r Hr. apply elem_of_map_to_list. unfold tempUsers.
    by rewrite !lookup_fmap, Hr. }
  assert (Hlookup : ∀ userID r, Users w !! userID = Some r →
            merge_loaded (map_to_list tempUsers) (Users w2) !! userID
            = Some (reloaded r)).
  { intros userID r Hr. apply merge_loaded_in; [apply NoDup_fst_map_to_list|eauto]. }
  eexists. split.
  { rewrite load_free, Hfile2, Hdisk2, Hunmarshal by done.
    rewrite load_entries_ok by done. reflexivity. }
  simpl. split.
  - intros userID r Hr. unfold sessions_of, active_of; simpl.
    rewrite (Hlookup _ _ Hr), Hr. done.
  - intros Hempty. apply map_eq. intros userID. rewrite lookup_fmap.
    destruct (Users w !! userID) as [r|] eqn:Hr; simpl.
    + by apply Hlookup.
    + rewrite merge_loaded_notin, Hempty; [done|].
      intros Hin'. apply list_elem_of_fmap in Hin' as ([u o] & -> & Hin').
      apply elem_of_map_to_list in Hin'. unfold tempUsers in Hin'.
      rewrite !lookup_fmap in Hin'. simpl in *. by rewrite Hr in Hin'.
Qed.


(** C10.  A [load] that fails leaves the store as it was.  If the content
    of the file does not unmarshal, [load] returns its error in the very
    world it was called in; and whenever [load] returns an error at all, no
    field of the world has changed: the records read from the file are
    merged only after [json.Unmarshal] has succeeded. *)
Theorem load_failure_atomic (w : World) :
  (∀ dataBytes,
     mu w = false → file w = Some dataBytes → disk_ok w = true →
     json_Unmarshal dataBytes = None →
     load w = Returned (Some ErrUnmarshal) w ∧
     Users (world_of (load w)) = Users w) ∧
  (∀ e w', load w = Returned (Some e) w' → w' = w).
Proof.
  split.
  - intros dataBytes Hmu Hfile Hdisk Hbad.
    by rewrite load_free, Hfile, Hdisk, Hbad.
  - intros e w' Hload. destruct (mu w) eqn:Hmu.
    { by rewrite load_held in Hload. }
    rewrite load_free in Hload by done.
    destruct (file w) as [dataBytes|]; [|by simplify_eq].
    destruct (disk_ok w); [|by simplify_eq].
    destruct (json_Unmarshal dataBytes) as [tempUsers|]; [|by simplify_eq].
    by destruct (forM_ _ _ _).
Qed.

(** A file that unmarshals to a map with a null record makes [load] panic
    at that record: the assignment to [userData.ActiveGames] goes through a
    nil pointer.  The records the loop met before it are already merged. *)
Lemma load_null_record_panics w dataBytes tempUsers l1 userID l2 :
  mu w = false → file w = Some dataBytes → disk_ok w = true →
  json_Unmarshal dataBytes = Some tempUsers →
  map_to_list tempUsers = l1 ++ (userID, None) :: l2 →
  Forall (fun entry => is_Some entry.2) l1 →
  load w = Panicked (set_Users (merge_loaded l1) w).
Proof.
  intros Hmu Hfile Hdisk Hjson Hlist Hl1.
  rewrite load_free, Hfile, Hdisk, Hjson, Hlist by done.
  rewrite load_entries_null by done.
  destruct w; simpl in *. by subst.
Qed.


End RoundTrip.

(** ** The presence reconciler *)

Section Reconciler.

Context `{RT : Runtime}.

Lemma currentActivities_fold activities acc gameName :
  isCurrent
    (fold_left
       (fun acc activity =>
          if isGame activity then <[Name activity := true]> acc else acc)
       activities acc) gameName = true
  ↔ isCurrent acc gameName = true
    ∨ ∃ a, a ∈ activities ∧ isGame a = true ∧ Name a = gameName.
Proof.
  revert acc. induction activities as [|a l IH]; intros acc; simpl.
  - split; [by left|]. intros [?|(a & Ha & _)]; [done|].
    by apply elem_of_nil in Ha.
  - rewrite IH. unfold isCurrent. split.
    + intros [Hacc|(b & Hb & Hg & Hn)].
      * destruct (isGame a) eqn:Hga; [|by left].
        destruct (decide (Name a = gameName)) as [Heq|Hne].
        -- right. exists a. split; [by left|done].
        -- rewrite lookup_insert_ne in Hacc by done. by left.
      * right. exists b. split; [by right|done].
    + intros [Hacc|(b & Hb & Hg & Hn)].
      * left. destruct (isGame a); [|done].
        destruct (decide (Name a = gameName)) as [->|Hne];
          [by rewrite lookup_insert_eq|by rewrite lookup_insert_ne].
      * apply elem_of_cons in Hb as [->|Hb].
        -- left. rewrite Hg. subst. by rewrite lookup_insert_eq.
        -- right. eauto.
Qed.

(** [currentActivities] answers [true] exactly on the game-typed names. *)
Lemma isCurrent_gameNames p gameName :
  isCurrent (currentActivities (Activities p)) gameName = true
  ↔ gameName ∈ gameNames p.
Proof.
  unfold currentActivities, gameNames. rewrite currentActivities_fold.
  rewrite elem_of_list_to_set, list_elem_of_fmap. split.
  - intros [Hempty|(a & Ha & Hg & Hn)]; [done|].
    exists a. split; [done|]. by apply list_elem_of_filter.
  - intros (a & -> & Ha). apply list_elem_of_filter in Ha as [Hg Ha].
    right. eauto.
Qed.

Lemma not_isCurrent_gameNames p gameName :
  isCurrent (currentActivities (Activities p)) gameName = false
  ↔ gameName ∉ gameNames p.
Proof.
  rewrite <- isCurrent_gameNames.
  by destruct (isCurrent _ gameName).
Qed.

Lemma closeGame_current userID current gameName startTime w :
  isCurrent current gameName = true →
  closeGame userID current (gameName, startTime) w = Returned tt w.
Proof. intros Hc. unfold closeGame; simpl. by rewrite Hc. Qed.

(** Closing a game under the held mutex: the session is appended, the timer
    removed, and the handler parks in [save]. *)
Lemma closeGame_stopped userID current gameName startTime w :
  mu w = true → isCurrent current gameName = false →
  closeGame userID current (gameName, startTime) w
  = Blocked
      (set_Users
         (alter (close_timer gameName
                   (stopped gameName startTime (time_Now (ticks w)))) userID)
         (tick w)).
Proof.
  intros Hmu Hc. unfold closeGame; simpl. rewrite Hc.
  unfold bind, Now, update_user; simpl. by rewrite save_held.
Qed.

Lemma close_loop_current userID current l w :
  Forall (fun entry => isCurrent current entry.1 = true) l →
  forM_ l (closeGame userID current) w = Returned tt w.
Proof.
  induction 1 as [|[g t] l Hc _ IH]; simpl; [done|].
  unfold bind. by rewrite closeGame_current.
Qed.

Lemma close_loop_stopped userID current l1 gameName startTime l2 w :
  mu w = true →
  Forall (fun entry => isCurrent current entry.1 = true) l1 →
  isCurrent current gameName = false →
  forM_ (l1 ++ (gameName, startTime) :: l2) (closeGame userID current) w
  = Blocked
      (set_Users
         (alter (close_timer gameName
                   (stopped gameName startTime (time_Now (ticks w)))) userID)
         (tick w)).
Proof.
  intros Hmu Hl1 Hc. induction Hl1 as [|[g t] l Hg _ IH]; simpl; unfold bind.
  - by rewrite closeGame_stopped.
  - by rewrite closeGame_current.
Qed.

(** The entries of a map either all name current games, or there is a
    first one that does not. *)
Lemma first_stopped current (l : list (string * instant)) :
  Forall (fun entry => isCurrent current entry.1 = true) l ∨
  ∃ l1 gameName startTime l2,
    l = l1 ++ (gameName, startTime) :: l2 ∧
    Forall (fun entry => isCurrent current entry.1 = true) l1 ∧
    isCurrent current gameName = false.
Proof.
  induction l as [|[g t] l IH]; [by left|].
  destruct (isCurrent current g) eqn:Hg.
  - destruct IH as [Hall|(l1 & g' & t' & l2 & -> & Hl1 & Hg')].
    + left. by constructor.
    + right. exists ((g, t) :: l1), g', t', l2. split; [done|].
      split; [by constructor|done].
  - right. by exists [], g, t, l.
Qed.

Lemma openAll_noop activities active n :
  (∀ a, a ∈ activities → isGame a = true → is_Some (active !! Name a)) →
  openAll activities active n = (active, n).
Proof.
  induction activities as [|a l IH]; intros Hall; simpl; [done|].
  assert (Hl : openAll l active n = (active, n)).
  { apply IH. intros b Hb. apply Hall. by right. }
  destruct (isGame a) eqn:Hg; [|done].
  destruct (Hall a) as [t Ht]; [by left|done|]. by rewrite Ht.
Qed.

(** The opening loop never blocks; it leaves the sessions alone and opens
    the timers [openAll] lists. *)
Lemma open_loop userID activities w r :
  Users w !! userID = Some r →
  forM_ activities (openGame userID) w
  = Returned tt
      (with_record userID
         {| Sessions := Sessions r;
            ActiveGames := (openAll activities (ActiveGames r) (ticks w)).1 |}
         (openAll activities (ActiveGames r) (ticks w)).2 (mu w) w).
Proof.
  revert w r. induction activities as [|a l IH]; intros w r Hr; simpl.
  - unfold ret, with_record. f_equal. destruct w as [users m c h n], r.
    simpl in *. f_equal. symmetry. by apply insert_id.
  - unfold bind, openGame. destruct (isGame a) eqn:Hg; [|by apply IH].
    unfold bind, read_user. rewrite Hr.
    destruct (ActiveGames r !! Name a) eqn:Hact; simpl; [by apply IH|].
    erewrite IH; [|simpl; by rewrite lookup_alter_eq, Hr].
    simpl. unfold with_record; simpl. by rewrite insert_alter_eq.
Qed.

Lemma presenceUpdate_bot p w :
  Bot (PresenceUser p) = true → presenceUpdate p w = Returned tt w.
Proof. intros Hb. unfold presenceUpdate. by rewrite Hb. Qed.

Lemma presenceUpdate_held p w :
  Bot (PresenceUser p) = false → mu w = true → presenceUpdate p w = Blocked w.
Proof. intros Hb Hmu. unfold presenceUpdate, bind, mu_Lock. by rewrite Hb, Hmu. Qed.

(** With the mutex free the handler takes it, makes sure the user has a
    record, and runs its two loops. *)
Lemma presenceUpdate_free p w :
  Bot (PresenceUser p) = false → mu w = false →
  presenceUpdate p w
  = defer mu_Unlock
      (forM_ (map_to_list (active_of (ID (PresenceUser p)) w))
         (closeGame (ID (PresenceUser p)) (currentActivities (Activities p))) ;;;
       forM_ (Activities p) (openGame (ID (PresenceUser p))))
      (entered (ID (PresenceUser p)) w).
Proof.
  intros Hb Hmu. unfold presenceUpdate. rewrite Hb.
  set (userID := ID (PresenceUser p)).
  unfold bind at 1. unfold mu_Lock. rewrite Hmu. unfold defer. f_equal.
  unfold entered, with_record, sessions_of, active_of.
  destruct w as [users m c h n]; simpl in *; subst m.
  unfold bind at 1. unfold get_Users; simpl. unfold bind at 1.
  destruct (users !! userID) as [r|] eqn:Hr; simpl.
  - unfold bind at 1. unfold read_user; simpl. rewrite Hr.
    rewrite insert_id; [done|]. rewrite Hr. by destruct r.
  - unfold bind at 1. unfold read_user; simpl. by rewrite lookup_insert_eq.
Qed.

(** No open timer has stopped: the handler returns, and only the opening
    loop has acted. *)
Lemma presenceUpdate_quiet p w :
  Bot (PresenceUser p) = false → mu w = false →
  (∀ gameName startTime,
     active_of (ID (PresenceUser p)) w !! gameName = Some startTime →
     gameName ∈ gameNames p) →
  presenceUpdate p w
  = Returned tt
      (with_record (ID (PresenceUser p))
         {| Sessions := sessions_of (ID (PresenceUser p)) w;
            ActiveGames :=
              (openAll (Activities p) (active_of (ID (PresenceUser p)) w)
                 (ticks w)).1 |}
         (openAll (Activities p) (active_of (ID (PresenceUser p)) w) (ticks w)).2
         false w).
Proof.
  intros Hb Hmu Hall. rewrite presenceUpdate_free by done.
  set (userID := ID (PresenceUser p)) in *.
  unfold defer, bind. rewrite close_loop_current.
  2:{ apply Forall_forall. intros [g t] Hin. apply elem_of_map_to_list in Hin.
      apply isCurrent_gameNames. eauto. }
  erewrite open_loop; [|unfold entered, with_record; simpl; apply lookup_insert_eq].
  simpl. unfold with_record; simpl. by rewrite insert_insert_eq.
Qed.

(** Some open timer has stopped: the first such timer is closed, and the
    handler parks in the [save] that follows. *)
Lemma presenceUpdate_closing p w l1 gameName startTime l2 :
  Bot (PresenceUser p) = false → mu w = false →
  map_to_list (active_of (ID (PresenceUser p)) w)
    = l1 ++ (gameName, startTime) :: l2 →
  Forall (fun entry =>
            isCurrent (currentActivities (Activities p)) entry.1 = true) l1 →
  gameName ∉ gameNames p →
  presenceUpdate p w
  = Blocked
      (with_record (ID (PresenceUser p))
         (close_timer gameName
            (stopped gameName startTime (time_Now (ticks w)))
            {| Sessions := sessions_of (ID (PresenceUser p)) w;
               ActiveGames := active_of (ID (PresenceUser p)) w |})
         (S (ticks w)) true w).
Proof.
  intros Hb Hmu Hlist Hl1 Hstopped. rewrite presenceUpdate_free by done.
  set (userID := ID (PresenceUser p)) in *.
  unfold defer, bind. rewrite Hlist.
  rewrite close_loop_stopped;
    [|done|done|by apply not_isCurrent_gameNames].
  unfold entered, with_record; simpl. unfold set_Users; simpl.
  by rewrite alter_insert_eq.
Qed.

(** The three ways a presence update of a user (not a bot) can go. *)
Lemma presenceUpdate_cases p w :
  Bot (PresenceUser p) = false →
  let userID := ID (PresenceUser p) in
  (mu w = true ∧ presenceUpdate p w = Blocked w) ∨
  (mu w = false ∧
   (∀ gameName startTime,
      active_of userID w !! gameName = Some startTime → gameName ∈ gameNames p) ∧
   presenceUpdate p w
   = Returned tt
       (with_record userID
          {| Sessions := sessions_of userID w;
             ActiveGames :=
               (openAll (Activities p) (active_of userID w) (ticks w)).1 |}
          (openAll (Activities p) (active_of userID w) (ticks w)).2 false w)) ∨
  (mu w = false ∧
   ∃ gameName startTime,
     active_of userID w !! gameName = Some startTime ∧
     (gameName ∉ gameNames p) ∧
     presenceUpdate p w
     = Blocked
         (with_record userID
            (close_timer gameName
               (stopped gameName startTime (time_Now (ticks w)))
               {| Sessions := sessions_of userID w;
                  ActiveGames := active_of userID w |})
            (S (ticks w)) true w)).
Proof.
  intros Hb userID. destruct (mu w) eqn:Hmu.
  { left. split; [done|]. by apply presenceUpdate_held. }
  right.
  destruct (first_stopped (currentActivities (Activities p))
              (map_to_list (active_of userID w)))
    as [Hall|(l1 & g & t & l2 & Hlist & Hl1 & Hg)].
  - left. split; [done|].
    assert (Hcur : ∀ gameName startTime,
              active_of userID w !! gameName = Some startTime →
              gameName ∈ gameNames p).
    { intros g t Hgt. apply isCurrent_gameNames.
      apply elem_of_map_to_list in Hgt.
      by apply (proj1 (Forall_forall _ _) Hall (g, t)). }
    split; [done|]. by apply presenceUpdate_quiet.
  - right. split; [done|]. exists g, t.
    split; [|split].
    + apply elem_of_map_to_list. rewrite Hlist. apply elem_of_app. right. by left.
    + by apply not_isCurrent_gameNames.
    + eapply presenceUpdate_closing; eauto. by apply not_isCurrent_gameNames.
Qed.

End Reconciler.

(** ** Invariants of every operation *)

(** A property of the world that survives the few ways the program writes
    to it survives every operation, whatever its outcome. *)
Section Invariants.

Context `{RT : Runtime} (I : World → Prop).

Hypothesis I_mu : ∀ b w, I w → I (set_mu b w).
Hypothesis I_file : ∀ c w, I w → I (set_file c w).
Hypothesis I_tick : ∀ w, I w → I (tick w).
Hypothesis I_store : ∀ userID sessions w,
  I w → I (set_Users (insert userID {| Sessions := sessions; ActiveGames := ∅ |}) w).
Hypothesis I_close : ∀ userID gameName session w,
  I w → I (set_Users (alter (close_timer gameName session) userID) w).
Hypothesis I_open : ∀ userID gameName w,
  I w →
  I (set_Users
       (alter (fun userData =>
                 {| Sessions := Sessions userData;
                    ActiveGames :=
                      <[gameName := time_Now (ticks w)]> (ActiveGames userData) |})
          userID)
       (tick w)).

Lemma inv_Lock : preserves I mu_Lock.
Proof. intros w Hw. unfold mu_Lock. destruct (mu w); simpl; auto. Qed.

Lemma inv_Unlock : preserves I mu_Unlock.
Proof. intros w Hw. unfold mu_Unlock. destruct (mu w); simpl; auto. Qed.

Lemma inv_get_Users : preserves I get_Users.
Proof. by intros w Hw. Qed.

Lemma inv_read_user userID : preserves I (read_user userID).
Proof. intros w Hw. unfold read_user. by destruct (Users w !! userID). Qed.

Lemma inv_Now : preserves I Now.
Proof. intros w Hw. simpl. auto. Qed.

Lemma inv_ReadFile : preserves I ioutil_ReadFile.
Proof.
  intros w Hw. unfold ioutil_ReadFile.
  destruct (file w); [destruct (disk_ok w)|]; done.
Qed.

Lemma inv_WriteFile dataBytes : preserves I (ioutil_WriteFile dataBytes).
Proof.
  intros w Hw. unfold ioutil_WriteFile. destruct (disk_ok w); simpl; auto.
Qed.

Lemma inv_store userID sessions :
  preserves I (store_user userID {| Sessions := sessions; ActiveGames := ∅ |}).
Proof. intros w Hw. simpl. auto. Qed.

(** One step of the calculus on the goal. *)
Ltac inv_step :=
  first
    [ apply preserves_ret
    | apply preserves_panic
    | apply inv_Lock
    | apply inv_Unlock
    | apply inv_get_Users
    | apply inv_read_user
    | apply inv_Now
    | apply inv_ReadFile
    | apply inv_WriteFile
    | apply inv_store
    | apply preserves_defer
    | apply preserves_bind; [|intros ?]
    | apply preserves_forM; intros ? _
    | apply preserves_foldM; intros ? ? _
    | match goal with
      | |- preserves _ (match ?x with _ => _ end) => destruct x
      end ].

Lemma inv_save : preserves I save.
Proof. unfold save. repeat inv_step. Qed.

Lemma inv_load : preserves I load.
Proof. unfold load, load_entry. repeat inv_step. Qed.

Lemma inv_closeGame userID current entry :
  preserves I (closeGame userID current entry).
Proof.
  unfold closeGame. destruct (isCurrent current entry.1); [apply preserves_ret|].
  apply preserves_bind; [apply inv_Now|intros endTime].
  apply preserves_bind.
  { intros w Hw. simpl. apply (I_close _ _ _ _ Hw). }
  intros _. apply preserves_bind; [apply inv_save|intros _; apply preserves_ret].
Qed.

Lemma inv_openGame userID activity : preserves I (openGame userID activity).
Proof.
  unfold openGame. destruct (isGame activity); [|apply preserves_ret].
  apply preserves_bind; [apply inv_read_user|intros userData].
  destruct (ActiveGames userData !! Name activity); [apply preserves_ret|].
  intros w Hw. unfold bind, Now, update_user; simpl. by apply I_open.
Qed.

Lemma inv_presenceUpdate p : preserves I (presenceUpdate p).
Proof.
  unfold presenceUpdate. destruct (Bot (PresenceUser p)); [apply preserves_ret|].
  repeat first [ apply inv_closeGame | apply inv_openGame | inv_step ].
Qed.

Lemma inv_messageCreate self m : preserves I (messageCreate self m).
Proof.
  unfold messageCreate, addActive, newUserGameData.
  repeat first [ apply inv_save | inv_step ].
Qed.

(** Every operation keeps the invariant, in every outcome. *)
Lemma run_preserves op w : I w → I (run op w).
Proof.
  destruct op; simpl.
  - apply inv_presenceUpdate.
  - apply inv_messageCreate.
  - apply inv_save.
  - apply inv_load.
Qed.

End Invariants.

(** ** What a presence update does to a user *)

Section Views.

Lemma sessions_of_with_record userID r n held w :
  sessions_of userID (with_record userID r n held w) = Sessions r.
Proof. unfold sessions_of, with_record; simpl. by rewrite lookup_insert_eq. Qed.

Lemma active_of_with_record userID r n held w :
  active_of userID (with_record userID r n held w) = ActiveGames r.
Proof. unfold active_of, with_record; simpl. by rewrite lookup_insert_eq. Qed.

Lemma sessions_of_with_record_ne userID other r n held w :
  userID ≠ other →
  sessions_of other (with_record userID r n held w) = sessions_of other w.
Proof.
  intros Hne. unfold sessions_of, with_record; simpl.
  by rewrite lookup_insert_ne.
Qed.

Lemma active_of_with_record_ne userID other r n held w :
  userID ≠ other →
  active_of other (with_record userID r n held w) = active_of other w.
Proof.
  intros Hne. unfold active_of, with_record; simpl.
  by rewrite lookup_insert_ne.
Qed.


Lemma with_record_same userID w :
  is_Some (Users w !! userID) →
  with_record userID
    {| Sessions := sessions_of userID w; ActiveGames := active_of userID w |}
    (ticks w) (mu w) w = w.
Proof.
  intros [r Hr]. unfold with_record, sessions_of, active_of. rewrite Hr; simpl.
  destruct w as [users m c h n], r; simpl in *. f_equal. by apply insert_id.
Qed.

End Views.

Section Timers.

Context `{RT : Runtime}.

Lemma monotone_clock_le n m :
  monotone_clock → (n ≤ m)%nat → time_Now n <= time_Now m.
Proof.
  intros Hmono Hle. induction Hle as [|m _ IH]; [lia|].
  specialize (Hmono m). lia.
Qed.

(** The opening loop never overwrites a timer that is already open. *)
Lemma openAll_keeps activities active n gameName startTime :
  active !! gameName = Some startTime →
  (openAll activities active n).1 !! gameName = Some startTime.
Proof.
  revert active n. induction activities as [|a l IH]; intros active n Hg; simpl.
  - done.
  - destruct (isGame a); [|by apply IH].
    destruct (active !! Name a) eqn:Ha; [by apply IH|].
    apply IH. rewrite lookup_insert_ne; [done|]. intros Heq. congruence.
Qed.

Lemma openAll_ticks activities active n :
  (n ≤ (openAll activities active n).2)%nat.
Proof.
  revert active n. induction activities as [|a l IH]; intros active n; simpl.
  - done.
  - destruct (isGame a); [|apply IH].
    destruct (active !! Name a); [apply IH|]. etrans; [|apply IH]. lia.
Qed.

(** A timer the opening loop leaves behind was there before, or was taken
    from the clock at one of the readings of the loop. *)
Lemma openAll_from_clock activities active n gameName startTime :
  (openAll activities active n).1 !! gameName = Some startTime →
  active !! gameName = Some startTime ∨
  ∃ k, (n ≤ k < (openAll activities active n).2)%nat ∧ startTime = time_Now k.
Proof.
  revert active n. induction activities as [|a l IH]; intros active n; simpl.
  - by left.
  - destruct (isGame a); [|by apply IH].
    destruct (active !! Name a) eqn:Ha; [by apply IH|].
    intros Hg. apply IH in Hg as [Hg|(k & Hk & ->)].
    + destruct (decide (Name a = gameName)) as [Heq|Hne].
      * rewrite Heq, lookup_insert_eq in Hg. injection Hg as <-. right.
        exists n. split; [|done].
        pose proof (openAll_ticks l (<[Name a := time_Now n]> active) (S n)).
        lia.
      * rewrite lookup_insert_ne in Hg by done. by left.
    + right. exists k. split; [lia|done].
Qed.

End Timers.

Section Presence.

Context `{RT : Runtime}.

(** No operation removes a user from the store, in any outcome. *)
Lemma users_never_removed op w : dom (Users w) ⊆ dom (Users (run op w)).
Proof.
  apply (run_preserves (fun w' => dom (Users w) ⊆ dom (Users w'))); try done.
  - intros userID sessions w' Hw'. simpl. rewrite dom_insert_L. set_solver.
  - intros userID gameName session w' Hw'. simpl. by rewrite dom_alter_L.
  - intros userID gameName w' Hw'. simpl. by rewrite dom_alter_L.
Qed.

(** The timers of the store always come from earlier readings of the
    clock: this holds at start-up and is kept by every operation. *)
Lemma timers_from_clock_initial content healthy :
  timers_from_clock (initial content healthy).
Proof. intros userID r g t Hr. simpl in Hr. by rewrite lookup_empty in Hr. Qed.

Lemma timers_from_clock_run op w :
  timers_from_clock w → timers_from_clock (run op w).
Proof.
  apply (run_preserves timers_from_clock); try done.
  - intros w' Hw' userID r g t Hr Hg. simpl in *.
    destruct (Hw' _ _ _ _ Hr Hg) as (k & Hk & ->). exists k. split; [lia|done].
  - intros userID sessions w' Hw' other r g t Hr Hg. simpl in *.
    destruct (decide (userID = other)) as [->|Hne].
    + rewrite lookup_insert_eq in Hr. injection Hr as <-. simpl in Hg.
      by rewrite lookup_empty in Hg.
    + rewrite lookup_insert_ne in Hr by done. eauto.
  - intros userID gameName session w' Hw' other r g t Hr Hg. simpl in *.
    destruct (decide (userID = other)) as [->|Hne].
    + rewrite lookup_alter_eq in Hr.
      destruct (Users w' !! other) as [r0|] eqn:Hr0; simplify_eq/=.
      apply lookup_delete_Some in Hg as [_ Hg]. eauto.
    + rewrite lookup_alter_ne in Hr by done. eauto.
  - intros userID gameName w' Hw' other r g t Hr Hg. simpl in *.
    destruct (decide (userID = other)) as [->|Hne].
    + rewrite lookup_alter_eq in Hr.
      destruct (Users w' !! other) as [r0|] eqn:Hr0; simplify_eq/=.
      destruct (decide (gameName = g)) as [->|Hg'].
      * rewrite lookup_insert_eq in Hg. injection Hg as <-.
        exists (ticks w'). split; [lia|done].
      * rewrite lookup_insert_ne in Hg by done.
        destruct (Hw' _ _ _ _ Hr0 Hg) as (k & Hk & ->).
        exists k. split; [lia|done].
    + rewrite lookup_alter_ne in Hr by done.
      destruct (Hw' _ _ _ _ Hr Hg) as (k & Hk & ->). exists k. split; [lia|done].
Qed.



(** C7.  A snapshot that names exactly the games with an open timer
    changes nothing for anybody: the update returns, no session is appended,
    no timer is opened, closed or restarted, the clock is not read, and when
    the user already had a record the world is the one before. *)
Theorem unchanged_snapshot_idempotent p w :
  Bot (PresenceUser p) = false → mu w = false →
  gameNames p = dom (active_of (ID (PresenceUser p)) w) →
  ∃ w',
    presenceUpdate p w = Returned tt w' ∧
    (∀ userID,
       sessions_of userID w' = sessions_of userID w ∧
       active_of userID w' = active_of userID w) ∧
    ticks w' = ticks w ∧
    (is_Some (Users w !! ID (PresenceUser p)) → w' = w).
Proof.
  intros Hb Hmu Hsame. set (userID := ID (PresenceUser p)) in *.
  assert (Hnoop : openAll (Activities p) (active_of userID w) (ticks w)
                  = (active_of userID w, ticks w)).
  { apply openAll_noop. intros a Ha Hg. apply elem_of_dom. rewrite <- Hsame.
    unfold gameNames. apply elem_of_list_to_set, list_elem_of_fmap.
    exists a. split; [done|]. by apply list_elem_of_filter. }
  eexists. split.
  { apply presenceUpdate_quiet; [done|done|].
    intros g t Hg. fold userID in Hg. rewrite Hsame. apply elem_of_dom. eauto. }
  fold userID. rewrite Hnoop; simpl. split; [|split; [done|]].
  - intros other. destruct (decide (userID = other)) as [<-|Hne].
    + by rewrite sessions_of_with_record, active_of_with_record.
    + by rewrite sessions_of_with_record_ne, active_of_with_record_ne.
  - intros Hsome. rewrite <- Hmu. by apply with_record_same.
Qed.

(** C9.  After a presence update of a user that is not a bot, the user
    has a record in the store, whether the handler returned or parked.  A
    user seen for the first time with no game-typed activity gets the empty
    record.  And no operation, in any outcome, removes a key from the
    store. *)
Theorem user_record_persists :
  (∀ p w,
     Bot (PresenceUser p) = false → mu w = false →
     is_Some (Users (world_of (presenceUpdate p w)) !! ID (PresenceUser p))) ∧
  (∀ p w,
     Bot (PresenceUser p) = false → mu w = false →
     Users w !! ID (PresenceUser p) = None → gameNames p = ∅ →
     presenceUpdate p w
     = Returned tt (set_Users (insert (ID (PresenceUser p)) newUserGameData) w)) ∧
  (∀ op w, dom (Users w) ⊆ dom (Users (run op w))).
Proof.
  split; [|split].
  - intros p w Hb Hmu.
    destruct (presenceUpdate_cases p w Hb)
      as [[Hheld _]|[(_ & _ & ->)|(_ & g & t & _ & _ & ->)]];
      [congruence| |]; simpl; by rewrite lookup_insert_eq.
  - intros p w Hb Hmu Hnew Hnone.
    assert (Hactive : active_of (ID (PresenceUser p)) w = ∅).
    { unfold active_of. by rewrite Hnew. }
    rewrite presenceUpdate_quiet; [|done|done|].
    2:{ intros g t. rewrite Hactive. by rewrite lookup_empty. }
    rewrite openAll_noop.
    2:{ intros a Ha Hg. exfalso. apply (not_elem_of_empty (C:=gset string) (Name a)).
        rewrite <- Hnone. unfold gameNames.
        apply elem_of_list_to_set, list_elem_of_fmap. exists a.
        split; [done|]. by apply list_elem_of_filter. }
    simpl. f_equal. unfold with_record, sessions_of. rewrite Hactive, Hnew.
    destruct w; simpl in *. by subst.
  - apply users_never_removed.
Qed.

(** X1.  In every store the program can reach from start-up, whatever the file
    it found and whatever happened since, the open timers are readings of
    the clock taken earlier. *)
Theorem open_timers_come_from_clock ops content healthy :
  timers_from_clock
    (foldl (fun w op => run op w) (initial content healthy) ops).
Proof.
  generalize (timers_from_clock_initial content healthy).
  generalize (initial content healthy) as w.
  induction ops as [|op ops IH]; intros w Hw; simpl; [done|].
  apply IH. by apply timers_from_clock_run.
Qed.

(** X3.  The presence of a bot is ignored: nothing is locked, read or
    written. *)
Theorem bot_presence_is_ignored p w :
  Bot (PresenceUser p) = true → presenceUpdate p w = Returned tt w.
Proof. apply presenceUpdate_bot. Qed.

End Presence.

(** ** The commands *)

Section Commands.

Context `{RT : Runtime}.

Lemma add_loop l gamePlayTimes w :
  foldM l addActive gamePlayTimes w
  = Returned (addAllActive l gamePlayTimes (ticks w)) (ticked (length l) w).
Proof.
  revert gamePlayTimes w. induction l as [|[g t] l IH]; intros acc w; simpl.
  - unfold ret, ticked. by destruct w.
  - unfold bind, addActive, bind, Now, ret; simpl. rewrite IH. f_equal.
    unfold ticked; simpl. f_equal. lia.
Qed.

Lemma addAllActive_notin l gamePlayTimes n gameName :
  gameName ∉ l.*1 → addAllActive l gamePlayTimes n !! gameName = gamePlayTimes !! gameName.
Proof.
  revert gamePlayTimes n. induction l as [|[g t] l IH]; intros acc n Hnotin; [done|].
  rewrite fmap_cons, not_elem_of_cons in Hnotin. destruct Hnotin as [Hne Hnotin].
  simpl. rewrite IH by done. unfold add_duration. by rewrite lookup_insert_ne.
Qed.

(** An open timer enters the report once, with the time elapsed at one of
    the readings of the loop. *)
Lemma addAllActive_in l gamePlayTimes n gameName startTime :
  NoDup l.*1 → (gameName, startTime) ∈ l →
  ∃ k, (n ≤ k < n + length l)%nat ∧
    addAllActive l gamePlayTimes n !! gameName
    = Some (Int64.wrap (default 0 (gamePlayTimes !! gameName)
                        + Time_Sub (time_Now k) startTime)).
Proof.
  revert gamePlayTimes n. induction l as [|[g t] l IH]; intros acc n Hnodup Hin.
  - by apply elem_of_nil in Hin.
  - rewrite fmap_cons in Hnodup. apply NoDup_cons in Hnodup as [Hfresh Hnodup].
    apply elem_of_cons in Hin as [Heq|Hin]; simpl.
    + injection Heq as <- <-. exists n. split; [lia|].
      rewrite addAllActive_notin by done. unfold add_duration.
      by rewrite lookup_insert_eq.
    + destruct (IH (add_duration g (Time_Sub (time_Now n) t) acc) (S n) Hnodup Hin)
        as (k & Hk & Hlookup).
      exists k. split; [lia|]. rewrite Hlookup. unfold add_duration.
      rewrite lookup_insert_ne; [done|]. intros ->. apply Hfresh.
      apply list_elem_of_fmap. by exists (gameName, startTime).
Qed.

Lemma messageCreate_self self m w :
  ID (Author m) = self → messageCreate self m w = Returned None w.
Proof.
  intros Hself. unfold messageCreate.
  by rewrite (proj2 (String.eqb_eq _ _) Hself).
Qed.

(** [!mygames] with the mutex free: the handler returns, with this reply. *)
Lemma mygames_free self m w :
  ID (Author m) ≠ self → Content m = "!mygames" → mu w = false →
  messageCreate self m w =
    match Users w !! ID (Author m) with
    | None => Returned (Some NoGamesTracked) w
    | Some userData =>
        match Sessions userData with
        | [] => Returned (Some NoGamesTracked) w
        | _ :: _ =>
            Returned
              (Some (PlayTimes
                 (addAllActive (map_to_list (ActiveGames userData))
                    (sessionTotals (Sessions userData)) (ticks w))))
              (ticked (length (map_to_list (ActiveGames userData))) w)
        end
    end.
Proof.
  intros Hself Hcontent Hmu. unfold messageCreate.
  rewrite (proj2 (String.eqb_neq _ _) Hself), Hcontent; simpl.
  destruct w as [users held c h n]; simpl in *; subst held.
  unfold bind at 1. unfold mu_Lock; simpl. unfold defer, bind, get_Users; simpl.
  destruct (users !! ID (Author m)) as [userData|]; [|done].
  destruct (Sessions userData) as [|s ss]; [done|]. simpl.
  by rewrite add_loop.
Qed.

(** [!cleargames] for a user with a record: the record is replaced by an
    empty one and the handler parks in [save]. *)
Lemma cleargames_deadlocks self m w :
  ID (Author m) ≠ self → Content m = "!cleargames" → mu w = false →
  is_Some (Users w !! ID (Author m)) →
  messageCreate self m w
  = Blocked (with_record (ID (Author m)) newUserGameData (ticks w) true w).
Proof.
  intros Hself Hcontent Hmu [r Hr]. unfold messageCreate.
  rewrite (proj2 (String.eqb_neq _ _) Hself), Hcontent; simpl.
  unfold bind at 1. unfold mu_Lock. rewrite Hmu. unfold defer, bind at 1.
  unfold get_Users. simpl. rewrite Hr. unfold bind at 1. unfold store_user.
  unfold bind. by rewrite save_held.
Qed.

(** A presence update that has a timer to close parks in [save]. *)
Lemma closing_update_deadlocks p w gameName startTime :
  Bot (PresenceUser p) = false → mu w = false →
  active_of (ID (PresenceUser p)) w !! gameName = Some startTime →
  gameName ∉ gameNames p →
  ∃ w', presenceUpdate p w = Blocked w' ∧ mu w' = true.
Proof.
  intros Hb Hmu Hg Hstopped.
  destruct (presenceUpdate_cases p w Hb)
    as [[Hheld _]|[(_ & Hall & _)|(_ & g & t & _ & _ & ->)]].
  - congruence.
  - destruct Hstopped. eauto.
  - eauto.
Qed.

(** C2, as the code has it.  [!mygames] answers "no games tracked"
    exactly when the user has no finished session; the open timers are not
    looked at.  When the user has a finished session, every open timer is
    in the report: with a clock that does not run backwards and a timer
    started before the first reading, the entry of its game is the whole
    seconds of the finished sessions of that game plus the time elapsed at
    some reading [now], and it is positive when that sum is not negative and
    the total fits an [int64]. *)
Theorem report_needs_a_session self m w :
  ID (Author m) ≠ self → Content m = "!mygames" → mu w = false →
  let userID := ID (Author m) in
  ((∃ w', messageCreate self m w = Returned (Some NoGamesTracked) w')
   ↔ sessions_of userID w = []) ∧
  (sessions_of userID w ≠ [] → monotone_clock →
   ∀ gameName startTime,
     active_of userID w !! gameName = Some startTime →
     startTime < time_Now (ticks w) →
     ∃ totals w' now total,
       messageCreate self m w = Returned (Some (PlayTimes totals)) w' ∧
       startTime < now ∧
       totals !! gameName = Some total ∧
       total = Int64.wrap
                 (default 0 (sessionTotals (sessions_of userID w) !! gameName)
                  + Time_Sub now startTime) ∧
       (0 <= default 0 (sessionTotals (sessions_of userID w) !! gameName) →
        default 0 (sessionTotals (sessions_of userID w) !! gameName)
          + (now - startTime) <= Int64.max →
        0 < total)).
Proof.
  intros Hself Hcontent Hmu userID.
  pose proof (mygames_free self m w Hself Hcontent Hmu) as Heval.
  fold userID in Heval. unfold sessions_of, active_of.
  destruct (Users w !! userID) as [userData|] eqn:Hr; simpl.
  - destruct (Sessions userData) as [|s ss] eqn:Hss.
    + split; [split; eauto|done].
    + split.
      { split; [|done]. intros [w' Hw']. rewrite Heval in Hw'. done. }
      intros _ Hmono gameName startTime Hg Hstart.
      apply elem_of_map_to_list in Hg.
      destruct (addAllActive_in _ (sessionTotals (s :: ss)) (ticks w) _ _
                  (NoDup_fst_map_to_list _) Hg) as (k & Hk & Hlookup).
      assert (Hnow : startTime < time_Now k).
      { pose proof (monotone_clock_le (ticks w) k Hmono ltac:(lia)). lia. }
      eexists _, _, (time_Now k), _. split; [exact Heval|].
      split; [done|]. split; [exact Hlookup|]. split; [done|].
      intros Hnonneg Hfits. unfold Time_Sub in *.
      rewrite clamp_in_range by (unfold Int64.in_range, Int64.min, Int64.max in *; lia).
      rewrite wrap_in_range by (unfold Int64.in_range, Int64.min, Int64.max in *; lia).
      lia.
  - split; [split; eauto|done].
Qed.

(** X2.  Answering [!mygames] does not write to the store: no timer is closed
    and no session appended, whatever the outcome. *)
Theorem report_is_read_only self m w :
  Content m = "!mygames" →
  Users (world_of (messageCreate self m w)) = Users w.
Proof.
  intros Hcontent. destruct (decide (ID (Author m) = self)) as [Hself|Hself].
  { by rewrite messageCreate_self. }
  destruct (mu w) eqn:Hmu.
  - unfold messageCreate.
    rewrite (proj2 (String.eqb_neq _ _) Hself), Hcontent; simpl.
    unfold bind, mu_Lock. by rewrite Hmu.
  - rewrite mygames_free by done.
    destruct (Users w !! ID (Author m)) as [userData|]; [|done].
    by destruct (Sessions userData).
Qed.

End Commands.

(** ** The texts *)

Section Texts.

Lemma string_app_cons a (s t : string) : String a s +:+ t = String a (s +:+ t).
Proof. reflexivity. Qed.

Lemma string_app_assoc (s t u : string) : (s +:+ t) +:+ u = s +:+ (t +:+ u).
Proof.
  induction s as [|a s IH]; [done|]. by rewrite !string_app_cons, IH.
Qed.

Lemma string_app_nil_r (s : string) : s +:+ "" = s.
Proof. induction s as [|a s IH]; [done|]. by rewrite string_app_cons, IH. Qed.

Lemma string_length_app (s t : string) :
  String.length (s +:+ t) = (String.length s + String.length t)%nat.
Proof.
  induction s as [|a s IH]; [done|]. rewrite string_app_cons. simpl. by rewrite IH.
Qed.

Lemma join_loop sep rest x y :
  fold_left (fun result z => result +:+ (sep +:+ z)) (y :: rest) x
  = x +:+ sep +:+ String.concat sep (y :: rest).
Proof.
  revert x y. induction rest as [|z rest IH]; intros x y; [done|].
  change (fold_left (fun result z => result +:+ (sep +:+ z)) (z :: rest)
            (x +:+ (sep +:+ y))
          = x +:+ sep +:+ (y +:+ sep +:+ String.concat sep (z :: rest))).
  by rewrite IH, !string_app_assoc.
Qed.

(** X17.  [joinStrings] is the usual join: the elements in order with
    the separator between any two of them, none before the first or after
    the last; the empty list gives the empty string and a single element
    comes back as it is. *)
Theorem joinStrings_concat (s : list string) (sep : string) :
  joinStrings s sep = String.concat sep s.
Proof.
  destruct s as [|x [|y rest]]; [done|done|]. unfold joinStrings.
  by rewrite join_loop.
Qed.

Lemma concat_nonempty sep x (l : list string) :
  x ≠ "" → String.concat sep (x :: l) ≠ "".
Proof.
  intros Hx. destruct x as [|a x]; [done|]. by destruct l.
Qed.

Lemma Sprintf_unit_nonempty n unit : unit ≠ "" → Sprintf_unit n unit ≠ "".
Proof.
  intros Hunit Hempty. apply (f_equal String.length) in Hempty.
  unfold Sprintf_unit in Hempty. rewrite string_length_app in Hempty.
  destruct unit; [done|]. simpl in Hempty. lia.
Qed.

(** X18.  [formatDuration] never yields the empty text: whatever the
    duration, zero and negative ones included, at least one field is shown. *)
Theorem formatDuration_nonempty (d : duration) : formatDuration d ≠ "".
Proof.
  unfold formatDuration. rewrite joinStrings_concat.
  generalize (int64_of_float64
                (PrimFloat.div (Duration_Hours d) (float64_of_int64 24))) as days.
  generalize (Z.rem (int64_of_float64 (Duration_Hours d)) 24) as hours.
  generalize (Z.rem (int64_of_float64 (Duration_Minutes d)) 60) as minutes.
  generalize (Z.rem (int64_of_float64 (Duration_Seconds d)) 60) as seconds.
  intros seconds minutes hours days. cbv zeta.
  destruct (0 <? days), (0 <? hours), (0 <? minutes), (0 <? seconds);
    cbn [app length Nat.eqb orb];
    by apply concat_nonempty, Sprintf_unit_nonempty.
Qed.

Lemma all_from_spec check n from :
  all_from check n from = true →
  ∀ k, 0 <= k < Z.of_nat n → check (from + k) = true.
Proof.
  revert from. induction n as [|n IH]; intros from Hall k Hk; [lia|].
  simpl in Hall. apply andb_true_iff in Hall as [Hhere Hrest].
  destruct (decide (k = 0)) as [->|Hpos]; [by rewrite Z.add_0_r|].
  replace (from + k) with (from + 1 + (k - 1)) by lia. apply IH; [done|lia].
Qed.

(** X19.  For every whole number of seconds below one hour, every whole
    number of minutes below two days and every whole number of hours below
    one hundred days, the text of [formatDuration] is the one integer
    arithmetic gives: days, hours, minutes and seconds in this order, the
    fields that are zero left out, and [0s] for the zero duration. *)
Theorem formatDuration_whole_units :
  (∀ s, 0 <= s < 3600 → formatDuration (s * Second) = clockText s) ∧
  (∀ m, 0 <= m < 2880 → formatDuration (m * Minute) = clockText (m * 60)) ∧
  (∀ h, 0 <= h < 2400 → formatDuration (h * Hour) = clockText (h * 3600)).
Proof.
  split; [|split].
  - intros s Hs.
    assert (Hall : all_from (fun s => String.eqb (formatDuration (s * Second))
                                        (clockText s)) 3600 0 = true).
    { vm_compute. reflexivity. }
    apply String.eqb_eq. exact (all_from_spec _ _ _ Hall s Hs).
  - intros m Hm.
    assert (Hall : all_from (fun m => String.eqb (formatDuration (m * Minute))
                                        (clockText (m * 60))) 2880 0 = true).
    { vm_compute. reflexivity. }
    apply String.eqb_eq. exact (all_from_spec _ _ _ Hall m Hm).
  - intros h Hh.
    assert (Hall : all_from (fun h => String.eqb (formatDuration (h * Hour))
                                        (clockText (h * 3600))) 2400 0 = true).
    { vm_compute. reflexivity. }
    apply String.eqb_eq. exact (all_from_spec _ _ _ Hall h Hh).
Qed.

Lemma report_fold_prefix (l : list (string * duration)) (start : string) :
  ∃ rest,
    fold_left (fun response entry => response +:+ reportLine entry) l start
    = start +:+ rest.
Proof.
  revert start. induction l as [|e l IH]; intros start; simpl.
  - exists "". by rewrite string_app_nil_r.
  - destruct (IH (start +:+ reportLine e)) as [rest ->].
    exists (reportLine e +:+ rest). by rewrite string_app_assoc.
Qed.

Lemma report_fold_occurs (l : list (string * duration)) (start : string) entry :
  entry ∈ l →
  occurs_in (reportLine entry)
    (fold_left (fun response e => response +:+ reportLine e) l start).
Proof.
  revert start. induction l as [|e l IH]; intros start Hin.
  - by apply elem_of_nil in Hin.
  - apply elem_of_cons in Hin as [->|Hin]; simpl; [|by apply IH].
    destruct (report_fold_prefix l (start +:+ reportLine e)) as [rest ->].
    exists start, rest. by rewrite string_app_assoc.
Qed.

(** X20.  The text of a report opens with the line that names the user,
    and every game of the report has its line in it,
    [- **game**: formatted total], ended by a line feed. *)
Theorem replyText_lists_games username gamePlayTimes gameName total :
  gamePlayTimes !! gameName = Some total →
  occurs_in (reportLine (gameName, total))
    (replyText username (PlayTimes gamePlayTimes)) ∧
  ∃ rest,
    replyText username (PlayTimes gamePlayTimes)
    = ("Here are your tracked game play times, " +:+ username +:+ ":" +:+ newline)
      +:+ rest.
Proof.
  intros Hg. split.
  - apply report_fold_occurs. by apply elem_of_map_to_list.
  - apply report_fold_prefix.
Qed.

End Texts.

(** ** Dispatch and mutual exclusion *)

Section Dispatch.

Context `{RT : Runtime}.

Lemma messageCreate_other_text self m w :
  Content m ≠ "!mygames" → Content m ≠ "!cleargames" →
  messageCreate self m w = Returned None w.
Proof.
  intros Hreport Hclear.
  unfold messageCreate. destruct (String.eqb (ID (Author m)) self); [done|].
  by rewrite (proj2 (String.eqb_neq _ _) Hreport),
             (proj2 (String.eqb_neq _ _) Hclear).
Qed.

Lemma cleargames_nothing self m w :
  ID (Author m) ≠ self → Content m = "!cleargames" → mu w = false →
  Users w !! ID (Author m) = None →
  messageCreate self m w = Returned (Some NothingToClear) w.
Proof.
  intros Hself Hcontent Hmu Hnone. unfold messageCreate.
  rewrite (proj2 (String.eqb_neq _ _) Hself), Hcontent; simpl.
  destruct w as [users held c h n]; simpl in *; subst held.
  unfold bind, mu_Lock, defer, get_Users; simpl. by rewrite Hnone.
Qed.

(** X5.  [messageCreate] acts on two texts only, compared as they are
    (case and blanks matter): a message of the bot itself, or any text other
    than [!mygames] and [!cleargames], is dropped at once.  Nothing is sent,
    the mutex is not taken (the handler returns even while it is held) and
    the world is left as it was. *)
Theorem messageCreate_ignores self m w :
  ID (Author m) = self
  ∨ (Content m ≠ "!mygames" ∧ Content m ≠ "!cleargames") →
  messageCreate self m w = Returned None w.
Proof.
  intros [Hself|[Hreport Hclear]].
  - by apply messageCreate_self.
  - by apply messageCreate_other_text.
Qed.

(** X6.  [!cleargames] from a user the store does not know is answered
    with "no data to clear": no record is created for the user, [save] is
    not called and the world is left as it was. *)
Theorem cleargames_unknown_user self m w :
  ID (Author m) ≠ self → Content m = "!cleargames" → mu w = false →
  Users w !! ID (Author m) = None →
  messageCreate self m w = Returned (Some NothingToClear) w.
Proof. apply cleargames_nothing. Qed.

Lemma messageCreate_held self m w :
  mu w = true → world_of (messageCreate self m w) = w.
Proof.
  intros Hmu. unfold messageCreate.
  destruct (String.eqb (ID (Author m)) self); [done|].
  destruct (String.eqb (Content m) "!mygames").
  { unfold bind, mu_Lock. by rewrite Hmu. }
  destruct (String.eqb (Content m) "!cleargames"); [|done].
  unfold bind, mu_Lock. by rewrite Hmu.
Qed.

Lemma run_held op w : mu w = true → run op w = w.
Proof.
  intros Hmu. destruct op as [p|self m| |]; simpl.
  - destruct (Bot (PresenceUser p)) eqn:Hb.
    + by rewrite presenceUpdate_bot.
    + by rewrite presenceUpdate_held.
  - by apply messageCreate_held.
  - by rewrite save_held.
  - by rewrite load_held.
Qed.

(** X7.  While the mutex is held no operation reads or writes the store:
    a presence update, a command, [save] and [load] all park at their
    [Lock] (or return at once when they do not need the store), and the
    world stays exactly as it is. *)
Theorem held_mutex_excludes op w : mu w = true → run op w = w.
Proof. apply run_held. Qed.

(** X16.  The two handlers and [save] never panic: whatever the world and
    the event, they return or park on the mutex.  The deferred [Unlock]
    always finds the mutex held, and the record a handler works on is always
    in the store. *)
Theorem handlers_never_panic :
  (∀ p w, ∀ w', presenceUpdate p w ≠ Panicked w') ∧
  (∀ self m w, ∀ w', messageCreate self m w ≠ Panicked w') ∧
  (∀ w, ∀ w', save w ≠ Panicked w').
Proof.
  split; [|split].
  - intros p w w'. destruct (Bot (PresenceUser p)) eqn:Hb.
    { by rewrite presenceUpdate_bot. }
    destruct (presenceUpdate_cases p w Hb)
      as [[_ ->]|[(_ & _ & ->)|(_ & g & t & _ & _ & ->)]]; done.
  - intros self m w w'.
    destruct (decide (ID (Author m) = self)) as [Hself|Hself].
    { by rewrite messageCreate_self. }
    destruct (mu w) eqn:Hmu.
    { pose proof (messageCreate_held self m w Hmu) as Hheld.
      unfold messageCreate in *.
      rewrite (proj2 (String.eqb_neq _ _) Hself) in *.
      destruct (String.eqb (Content m) "!mygames").
      { unfold bind, mu_Lock. by rewrite Hmu. }
      destruct (String.eqb (Content m) "!cleargames"); [|done].
      unfold bind, mu_Lock. by rewrite Hmu. }
    destruct (decide (Content m = "!mygames")) as [Hreport|Hreport].
    { rewrite mygames_free by done.
      destruct (Users w !! ID (Author m)) as [userData|]; [|done].
      by destruct (Sessions userData). }
    destruct (decide (Content m = "!cleargames")) as [Hclear|Hclear].
    { destruct (Users w !! ID (Author m)) as [r|] eqn:Hr.
      - by rewrite cleargames_deadlocks.
      - by rewrite cleargames_nothing. }
    by rewrite messageCreate_other_text.
  - intros w w'. destruct (mu w) eqn:Hmu.
    + by rewrite save_held.
    + rewrite save_free by done.
      destruct (json_MarshalIndent _); [destruct (disk_ok w)|]; done.
Qed.

End Dispatch.

(** ** More on the reconciler and the report *)

Section Tracking.

Context `{RT : Runtime}.

Lemma openAll_dom activities active n :
  dom (openAll activities active n).1
  = dom active
    ∪ list_to_set (Name <$> filter (fun a => isGame a = true) activities).
Proof.
  revert active n. induction activities as [|a l IH]; intros active n; simpl.
  - set_solver.
  - destruct (isGame a) eqn:Hg.
    + rewrite filter_cons_True by done. rewrite fmap_cons, list_to_set_cons.
      destruct (active !! Name a) eqn:Ha.
      * rewrite IH. apply elem_of_dom_2 in Ha. set_solver.
      * rewrite IH, dom_insert_L. set_solver.
    + rewrite filter_cons_False by congruence. apply IH.
Qed.

(** X8.  A presence update that has no timer to close returns, and
    afterwards the open timers of the user are exactly the game-typed names
    of the snapshot, however often and in whatever order the snapshot lists
    them.  The timers that were open keep their start time, each new timer
    starts at a reading of the clock taken during the update, the sessions
    are untouched and the mutex is free again. *)
Theorem quiet_update_tracks_snapshot p w :
  Bot (PresenceUser p) = false → mu w = false →
  (∀ gameName startTime,
     active_of (ID (PresenceUser p)) w !! gameName = Some startTime →
     gameName ∈ gameNames p) →
  let userID := ID (PresenceUser p) in
  ∃ w',
    presenceUpdate p w = Returned tt w' ∧
    dom (active_of userID w') = gameNames p ∧
    sessions_of userID w' = sessions_of userID w ∧
    (∀ gameName startTime,
       active_of userID w !! gameName = Some startTime →
       active_of userID w' !! gameName = Some startTime) ∧
    (∀ gameName startTime,
       active_of userID w' !! gameName = Some startTime →
       active_of userID w !! gameName = None →
       ∃ k, (ticks w ≤ k < ticks w')%nat ∧ startTime = time_Now k) ∧
    mu w' = false.
Proof.
  intros Hb Hmu Hall userID. eexists. split.
  { by apply presenceUpdate_quiet. }
  fold userID. rewrite active_of_with_record, sessions_of_with_record; simpl.
  split; [|split; [done|split; [|split; [|done]]]].
  - rewrite openAll_dom. fold (gameNames p).
    assert (dom (active_of userID w) ⊆ gameNames p); [|set_solver].
    intros g Hg. apply elem_of_dom in Hg as [t Ht]. eauto.
  - intros g t Hg. by apply openAll_keeps.
  - intros g t Hg Hnew. apply openAll_from_clock in Hg as [Hg|Hg]; [congruence|done].
Qed.

Lemma presenceUpdate_others p w other :
  other ≠ ID (PresenceUser p) →
  Users (world_of (presenceUpdate p w)) !! other = Users w !! other.
Proof.
  intros Hne. destruct (Bot (PresenceUser p)) eqn:Hb.
  { by rewrite presenceUpdate_bot. }
  destruct (presenceUpdate_cases p w Hb)
    as [[_ ->]|[(_ & _ & ->)|(_ & g & t & _ & _ & ->)]]; simpl;
    [done| |]; by rewrite lookup_insert_ne.
Qed.

Lemma messageCreate_others self m w other :
  other ≠ ID (Author m) →
  Users (world_of (messageCreate self m w)) !! other = Users w !! other.
Proof.
  intros Hne. destruct (mu w) eqn:Hmu.
  { by rewrite messageCreate_held. }
  destruct (decide (ID (Author m) = self)) as [Hself|Hself].
  { by rewrite messageCreate_self. }
  destruct (decide (Content m = "!mygames")) as [Hreport|Hreport].
  { rewrite mygames_free by done.
    destruct (Users w !! ID (Author m)) as [userData|]; [|done].
    by destruct (Sessions userData). }
  destruct (decide (Content m = "!cleargames")) as [Hclear|Hclear].
  { destruct (Users w !! ID (Author m)) as [r|] eqn:Hr.
    - rewrite cleargames_deadlocks by done. simpl. by rewrite lookup_insert_ne.
    - by rewrite cleargames_nothing. }
  by rewrite messageCreate_other_text.
Qed.

(** X9.  A handler touches the record of one user only: the record of
    every user other than the one the presence update is about, or the
    author of the message, is after the handler what it was before, in
    every outcome. *)
Theorem handlers_touch_one_user other :
  (∀ p w, other ≠ ID (PresenceUser p) →
     Users (world_of (presenceUpdate p w)) !! other = Users w !! other) ∧
  (∀ self m w, other ≠ ID (Author m) →
     Users (world_of (messageCreate self m w)) !! other = Users w !! other).
Proof.
  split.
  - intros p w. apply presenceUpdate_others.
  - intros self m w. apply messageCreate_others.
Qed.

Lemma wrap_add_l x y : Int64.wrap (Int64.wrap x + y) = Int64.wrap (x + y).
Proof.
  unfold Int64.wrap. f_equal.
  replace ((x + 9223372036854775808) mod 18446744073709551616
           - 9223372036854775808 + y + 9223372036854775808)
    with ((x + 9223372036854775808) mod 18446744073709551616 + y) by lia.
  rewrite Zplus_mod_idemp_l. f_equal. lia.
Qed.

Lemma wrap_add_r x y : Int64.wrap (x + Int64.wrap y) = Int64.wrap (x + y).
Proof. by rewrite (Z.add_comm x), wrap_add_l, (Z.add_comm y). Qed.

Lemma no_session_named gameName (l : list GameSession) :
  gameName ∉ GameName <$> l →
  filter (fun s => GameName s = gameName) l = [].
Proof.
  induction l as [|s l IH]; intros Hnotin; [done|].
  rewrite fmap_cons, not_elem_of_cons in Hnotin. destruct Hnotin as [Hne Hnotin].
  rewrite filter_cons_False by congruence. by apply IH.
Qed.

Lemma sessionTotals_fold sessions acc gameName :
  fold_left
    (fun acc session =>
       add_duration (GameName session)
         (Int64.wrap (int64_of_float64 (Duration session) * Second)) acc)
    sessions acc !! gameName
  = if decide (gameName ∈ GameName <$> sessions)
    then Some (Int64.wrap (default 0 (acc !! gameName)
                           + sumWholeSeconds gameName sessions))
    else acc !! gameName.
Proof.
  revert acc. induction sessions as [|s l IH]; intros acc.
  - rewrite decide_False; [done|]. rewrite fmap_nil. apply not_elem_of_nil.
  - simpl fold_left. rewrite IH. unfold sumWholeSeconds, add_duration.
    rewrite fmap_cons.
    destruct (decide (gameName ∈ GameName s :: (GameName <$> l))) as [Hsl|Hsl];
      destruct (decide (gameName ∈ GameName <$> l)) as [Hl|Hl];
      destruct (decide (GameName s = gameName)) as [Heq|Hne];
      try (destruct Hsl; first [by right | by rewrite Heq; left]);
      try (apply elem_of_cons in Hsl as [Hsl|Hsl]; congruence).
    + rewrite filter_cons_True by done. rewrite fmap_cons; simpl foldr.
      rewrite Heq, lookup_insert_eq; simpl. fold (wholeSeconds s).
      f_equal. rewrite wrap_add_l.
      set (rest := foldr Z.add 0 _).
      replace (default 0 (acc !! gameName) + Int64.wrap (wholeSeconds s) + rest)
        with (default 0 (acc !! gameName) + rest + Int64.wrap (wholeSeconds s))
        by lia.
      rewrite wrap_add_r. f_equal. lia.
    + rewrite filter_cons_False by done. by rewrite lookup_insert_ne.
    + rewrite filter_cons_True by done. rewrite fmap_cons; simpl foldr.
      rewrite Heq, lookup_insert_eq; simpl. fold (wholeSeconds s).
      rewrite (no_session_named _ _ Hl); simpl. rewrite wrap_add_r. f_equal. f_equal. lia.
    + by rewrite lookup_insert_ne.
Qed.

(** X11.  The total a report starts from, before the open timers are
    added: a game has an entry exactly when a finished session names it, and
    the entry is the sum over these sessions of the amounts the report adds
    for each, in [int64] arithmetic.  The order of the sessions does not
    matter. *)
Theorem sessionTotals_sum sessions gameName :
  (gameName ∈ GameName <$> sessions →
   sessionTotals sessions !! gameName
   = Some (Int64.wrap (sumWholeSeconds gameName sessions))) ∧
  (gameName ∉ GameName <$> sessions →
   sessionTotals sessions !! gameName = None).
Proof.
  unfold sessionTotals. rewrite sessionTotals_fold, lookup_empty; simpl.
  split; intros Hin.
  - by rewrite decide_True.
  - by rewrite decide_False.
Qed.

Lemma sessionTotals_dom sessions :
  dom (sessionTotals sessions) = list_to_set (GameName <$> sessions).
Proof.
  apply set_eq. intros g. rewrite elem_of_dom, elem_of_list_to_set.
  unfold sessionTotals. rewrite sessionTotals_fold, lookup_empty.
  destruct (decide (g ∈ GameName <$> sessions)) as [Hin|Hnotin].
  - split; eauto.
  - split; [by intros [? ?]|done].
Qed.

Lemma addAllActive_dom l gamePlayTimes n :
  dom (addAllActive l gamePlayTimes n) = dom gamePlayTimes ∪ list_to_set l.*1.
Proof.
  revert gamePlayTimes n. induction l as [|[g t] l IH]; intros acc n; simpl.
  - set_solver.
  - rewrite IH. unfold add_duration. rewrite dom_insert_L. set_solver.
Qed.

(** X10.  A report lists the games of the user and no other: a game has
    an entry exactly when a finished session of the user names it or a timer
    of the user is open for it. *)
Theorem report_lists_sessions_and_timers self m w userData :
  ID (Author m) ≠ self → Content m = "!mygames" → mu w = false →
  Users w !! ID (Author m) = Some userData → Sessions userData ≠ [] →
  ∃ gamePlayTimes w',
    messageCreate self m w = Returned (Some (PlayTimes gamePlayTimes)) w' ∧
    dom gamePlayTimes
    = list_to_set (GameName <$> Sessions userData) ∪ dom (ActiveGames userData).
Proof.
  intros Hself Hcontent Hmu Hr Hsessions.
  rewrite mygames_free, Hr by done.
  destruct (Sessions userData) as [|s ss] eqn:Hss; [done|].
  eexists _, _. split; [reflexivity|].
  rewrite addAllActive_dom, sessionTotals_dom. f_equal.
  apply set_eq. intros g.
  rewrite elem_of_list_to_set, list_elem_of_fmap, elem_of_dom. split.
  - intros ([g' t] & -> & Hin). apply elem_of_map_to_list in Hin. eauto.
  - intros [t Ht]. exists (g, t). split; [done|]. by apply elem_of_map_to_list.
Qed.

End Tracking.

(** ** Start-up, reload and exit *)

Section Life.

Context `{RT : Runtime}.

Lemma merge_loaded_timers l users :
  (∀ userID r, users !! userID = Some r → ActiveGames r = ∅) →
  ∀ userID r, merge_loaded l users !! userID = Some r → ActiveGames r = ∅.
Proof.
  revert users. induction l as [|[u o] l IH]; intros users Husers; [done|].
  change (merge_loaded ((u, o) :: l) users) with
    (merge_loaded l (match o with
                     | Some s => <[u := {| Sessions := s; ActiveGames := ∅ |}]> users
                     | None => users
                     end)).
  apply IH. destruct o as [sessions|]; [|done].
  intros userID r Hr. destruct (decide (u = userID)) as [->|Hne].
  - rewrite lookup_insert_eq in Hr. by injection Hr as <-.
  - rewrite lookup_insert_ne in Hr by done. eauto.
Qed.

Lemma first_null (l : list (string * option (list GameSession))) :
  Forall (fun entry => is_Some entry.2) l ∨
  ∃ l1 userID l2,
    l = l1 ++ (userID, None) :: l2 ∧ Forall (fun entry => is_Some entry.2) l1.
Proof.
  induction l as [|[u [sessions|]] l IH]; [by left| |].
  - destruct IH as [Hall|(l1 & userID & l2 & -> & Hl1)].
    + left. constructor; [by eexists|done].
    + right. exists ((u, Some sessions) :: l1), userID, l2.
      split; [done|]. constructor; [by eexists|done].
  - right. by exists [], u, l.
Qed.

(** X12.  A [load] that succeeds merges the file into the store: every
    user of the file gets the sessions of the file and no open timer, in
    place of whatever record the store had for it, and every user the file
    does not name keeps its record, open timers included.  The mutex is free
    again, and neither the file nor the clock has been touched. *)
Theorem load_merges_file w dataBytes tempUsers :
  mu w = false → file w = Some dataBytes → disk_ok w = true →
  json_Unmarshal dataBytes = Some tempUsers →
  (∀ userID record, tempUsers !! userID = Some record → is_Some record) →
  ∃ w',
    load w = Returned None w' ∧
    (∀ userID,
       Users w' !! userID
       = match tempUsers !! userID with
         | Some (Some sessions) =>
             Some {| Sessions := sessions; ActiveGames := ∅ |}
         | _ => Users w !! userID
         end) ∧
    mu w' = false ∧ file w' = file w ∧ ticks w' = ticks w.
Proof.
  intros Hmu Hfile Hdisk Hjson Hrecords.
  assert (Hsome : Forall (fun entry => is_Some entry.2) (map_to_list tempUsers)).
  { apply Forall_forall. intros [userID o] Hin.
    apply elem_of_map_to_list in Hin. simpl. eauto. }
  eexists. split.
  { rewrite load_free, Hfile, Hdisk, Hjson by done.
    rewrite load_entries_ok by done. reflexivity. }
  simpl. split; [|done]. intros userID.
  destruct (tempUsers !! userID) as [[sessions|]|] eqn:Hu.
  - apply merge_loaded_in; [apply NoDup_fst_map_to_list|].
    by apply elem_of_map_to_list.
  - by destruct (Hrecords _ _ Hu).
  - apply merge_loaded_notin. intros Hin.
    apply list_elem_of_fmap in Hin as ([u o] & -> & Hin).
    apply elem_of_map_to_list in Hin. simpl in Hu. congruence.
Qed.


Lemma init_outcome botToken content healthy :
  botToken ≠ "" →
  init botToken content healthy = Booted (load (initial content healthy)) ∧
  match load (initial content healthy) with
  | Blocked _ => False
  | Returned e w =>
      mu w = false ∧ ticks w = 0%nat ∧ file w = content ∧
      disk_ok w = healthy ∧
      (∀ userID r, Users w !! userID = Some r → ActiveGames r = ∅) ∧
      (e ≠ None → Users w = ∅)
  | Panicked w =>
      ∃ dataBytes tempUsers userID,
        content = Some dataBytes ∧
        json_Unmarshal dataBytes = Some tempUsers ∧
        tempUsers !! userID = Some None
  end.
Proof.
  intros Htoken. split.
  { unfold init. by rewrite (proj2 (String.eqb_neq _ _) Htoken). }
  rewrite load_free by done. simpl.
  destruct content as [dataBytes|]; [|done].
  destruct healthy; [|done].
  destruct (json_Unmarshal dataBytes) as [tempUsers|] eqn:Hjson; [|done].
  destruct (first_null (map_to_list tempUsers))
    as [Hall|(l1 & userID & l2 & Hlist & Hl1)].
  - rewrite load_entries_ok by done. simpl.
    split; [done|]. split; [done|]. split; [done|]. split; [done|].
    split; [|done]. apply merge_loaded_timers. intros userID r Hr.
    by rewrite lookup_empty in Hr.
  - rewrite Hlist, load_entries_null by done.
    exists dataBytes, tempUsers, userID. split; [done|]. split; [done|].
    apply elem_of_map_to_list. rewrite Hlist. apply elem_of_app. right. by left.
Qed.

(** X14.  Start-up.  Without a token [init] ends the process.  With a
    token it never parks, and when [load] returns, with or without an error,
    the bot starts with the mutex free, no reading of the clock taken, the
    file as it found it and no open timer for anybody; after a load error
    the store is empty.  The only way [init] can panic is a file that
    unmarshals to a null record. *)
Theorem init_boots botToken content healthy :
  init "" content healthy = Fatal ∧
  (botToken ≠ "" →
   match init botToken content healthy with
   | Fatal => False
   | Booted (Blocked _) => False
   | Booted (Returned e w) =>
       mu w = false ∧ ticks w = 0%nat ∧ file w = content ∧
       (∀ userID r, Users w !! userID = Some r → ActiveGames r = ∅) ∧
       (e ≠ None → Users w = ∅)
   | Booted (Panicked w) =>
       ∃ dataBytes tempUsers userID,
         content = Some dataBytes ∧
         json_Unmarshal dataBytes = Some tempUsers ∧
         tempUsers !! userID = Some None
   end).
Proof.
  split; [done|]. intros Htoken.
  destruct (init_outcome botToken content healthy Htoken) as [-> Hload].
  destruct (load (initial content healthy)) as [e w|w|w]; [|done|done].
  destruct Hload as (? & ? & ? & _ & ? & ?). done.
Qed.






End Life.

(** * The program on concrete inputs

    From here on the runtime is [Demo.runtime]: the clock reads 1 s, 2 s,
    3 s, ... and the data file is written by [Demo.encode]. *)

#[local] Existing Instance Demo.runtime.

Lemma demo_clock_monotone : monotone_clock.
Proof. intros n. simpl. unfold Second. lia. Qed.


Lemma demo_restarted_reached :
  Demo.restarted = run Load (initial (Some Demo.saved) true).
Proof. vm_compute. reflexivity. Qed.

Lemma demo_resumed_reached :
  Demo.resumed = run (OnPresence (Demo.playing ["Go"])) Demo.restarted.
Proof. vm_compute. reflexivity. Qed.


(** C1.  The two handlers that call [save] while they hold the mutex do
    not run to completion.  Alice plays Chess since the first reading of
    the clock and has no finished session.  A presence update without
    activities closes the timer, appends the session, and parks in [save]
    with the mutex held; [!cleargames] replaces her record and parks in
    [save] in the same way. *)
Theorem save_under_lock_deadlocks :
  presenceUpdate (Demo.playing []) Demo.started
  = Blocked
      {| Users :=
           {[ "1001" :=
                {| Sessions := [stopped "Chess" 1000000000 2000000000];
                   ActiveGames := ∅ |} ]};
         mu := true; file := None; disk_ok := true; ticks := 2 |}
  ∧ messageCreate "bot" (Demo.says "!cleargames") Demo.started
    = Blocked
        {| Users := {[ "1001" := newUserGameData ]};
           mu := true; file := None; disk_ok := true; ticks := 1 |}.
Proof. split; vm_compute; reflexivity. Qed.

(** Against C2 as the specification states it.  Alice has an open timer
    for Chess, started before now, and no finished session.  The answer to
    [!mygames] is "no games tracked": it is not a report in which Chess has
    a positive duration. *)
Lemma report_ignores_open_timer :
  sessions_of "1001" Demo.started = []
  ∧ active_of "1001" Demo.started !! "Chess" = Some 1000000000
  ∧ 1000000000 < time_Now (ticks Demo.started)
  ∧ messageCreate "bot" (Demo.says "!mygames") Demo.started
    = Returned (Some NoGamesTracked) Demo.started
  ∧ ¬ (∃ totals w' total,
         messageCreate "bot" (Demo.says "!mygames") Demo.started
         = Returned (Some (PlayTimes totals)) w'
         ∧ totals !! "Chess" = Some total ∧ 0 < total).
Proof.
  assert (Hreply : messageCreate "bot" (Demo.says "!mygames") Demo.started
                   = Returned (Some NoGamesTracked) Demo.started).
  { vm_compute. reflexivity. }
  split; [reflexivity|]. split; [reflexivity|]. split; [reflexivity|].
  split; [exact Hreply|].
  intros (totals & w' & total & Habsurd & _). rewrite Hreply in Habsurd.
  discriminate.
Qed.

Lemma report_needs_a_session_witness :
  ∃ totals w' now total,
    messageCreate "bot" (Demo.says "!mygames") Demo.resumed
    = Returned (Some (PlayTimes totals)) w' ∧
    1000000000 < now ∧
    totals !! "Go" = Some total ∧
    total = Int64.wrap
              (default 0 (sessionTotals (sessions_of "1001" Demo.resumed) !! "Go")
               + Time_Sub now 1000000000) ∧
    (0 <= default 0 (sessionTotals (sessions_of "1001" Demo.resumed) !! "Go") →
     default 0 (sessionTotals (sessions_of "1001" Demo.resumed) !! "Go")
       + (now - 1000000000) <= Int64.max →
     0 < total).
Proof.
  apply (proj2 (report_needs_a_session "bot" (Demo.says "!mygames") Demo.resumed
                  ltac:(discriminate) eq_refl eq_refl)).
  - discriminate.
  - exact demo_clock_monotone.
  - reflexivity.
  - reflexivity.
Defined.



(** C4.  The report drops the fraction of a second of every finished
    session.  The data file holds one session of chess for alice whose
    duration field is 1.5 s; the process starts on that file and alice asks
    for her report: it says 1 s.  With two finished sessions of 0.5 s each
    a report says 0 s. *)
Theorem report_truncates_sessions :
  Duration Demo.chess = 1.5%float
  ∧ load (initial (Some Demo.saved) true) = Returned None Demo.restarted
  ∧ messageCreate "bot" (Demo.says "!mygames") Demo.restarted
    = Returned (Some (PlayTimes {[ "Chess" := 1000000000 ]})) Demo.restarted
  ∧ Duration (Demo.blitz 0) = 0.5%float
  ∧ messageCreate "bot" (Demo.says "!mygames")
      (Demo.store [Demo.blitz 0; Demo.blitz 700000000] ∅ None)
    = Returned (Some (PlayTimes {[ "Chess" := 0 ]}))
        (Demo.store [Demo.blitz 0; Demo.blitz 700000000] ∅ None).
Proof. repeat split; vm_compute; reflexivity. Qed.

Lemma save_load_roundtrip_witness :
  save Demo.resumed = Returned None (set_file (Some Demo.saved) Demo.resumed) ∧
  ∃ w3,
    load (initial (Some Demo.saved) true) = Returned None w3 ∧
    (∀ userID r,
       Users Demo.resumed !! userID = Some r →
       Users w3 !! userID = Some (reloaded r) ∧
       sessions_of userID w3 = sessions_of userID Demo.resumed ∧
       active_of userID w3 = ∅) ∧
    (Users (initial (Some Demo.saved) true) = ∅ →
     Users w3 = reloaded <$> Users Demo.resumed).
Proof.
  apply (save_load_roundtrip Demo.resumed (initial (Some Demo.saved) true)
           Demo.saved).
  - reflexivity.
  - reflexivity.
  - vm_compute. reflexivity.
  - vm_compute. reflexivity.
  - reflexivity.
  - reflexivity.
  - reflexivity.
Defined.


Lemma unchanged_snapshot_idempotent_witness :
  ∃ w',
    presenceUpdate (Demo.playing ["Chess"]) Demo.started = Returned tt w' ∧
    (∀ userID,
       sessions_of userID w' = sessions_of userID Demo.started ∧
       active_of userID w' = active_of userID Demo.started) ∧
    ticks w' = ticks Demo.started ∧
    (is_Some (Users Demo.started !! "1001") → w' = Demo.started).
Proof.
  apply (unchanged_snapshot_idempotent (Demo.playing ["Chess"]) Demo.started).
  - reflexivity.
  - reflexivity.
  - vm_compute. reflexivity.
Defined.

Lemma user_record_persists_witness :
  is_Some (Users (world_of (presenceUpdate (Demo.playing []) Demo.started)) !! "1001")
  ∧ presenceUpdate (Demo.playing []) (initial None true)
    = Returned tt (set_Users (insert "1001" newUserGameData) (initial None true)).
Proof.
  destruct (user_record_persists (RT:=Demo.runtime)) as (Hkept & Hnew & _).
  split.
  - apply (Hkept (Demo.playing []) Demo.started); reflexivity.
  - apply (Hnew (Demo.playing []) (initial None true)); reflexivity.
Defined.


Lemma load_failure_atomic_witness :
  load (set_file (Some Demo.garbage) Demo.resumed)
  = Returned (Some ErrUnmarshal) (set_file (Some Demo.garbage) Demo.resumed)
  ∧ Users (world_of (load (set_file (Some Demo.garbage) Demo.resumed)))
    = Users (set_file (Some Demo.garbage) Demo.resumed).
Proof.
  apply (proj1 (load_failure_atomic (set_file (Some Demo.garbage) Demo.resumed))
           Demo.garbage);
    reflexivity.
Defined.


Lemma report_is_read_only_witness :
  Users (world_of (messageCreate "bot" (Demo.says "!mygames") Demo.resumed))
  = Users Demo.resumed.
Proof.
  apply (report_is_read_only "bot" (Demo.says "!mygames") Demo.resumed).
  reflexivity.
Defined.

Lemma bot_presence_is_ignored_witness :
  presenceUpdate
    {| PresenceUser := {| ID := "42"; Username := "tracker"; Bot := true |};
       Activities := [ {| Name := "Chess"; Kind := ActivityTypeGame |} ] |}
    Demo.started
  = Returned tt Demo.started.
Proof.
  apply (bot_presence_is_ignored
           {| PresenceUser := {| ID := "42"; Username := "tracker"; Bot := true |};
              Activities := [ {| Name := "Chess"; Kind := ActivityTypeGame |} ] |}
           Demo.started).
  reflexivity.
Defined.

(** A data file whose only record is null: [load] panics at start-up. *)
Lemma load_null_record_panics_demo :
  load (initial (Some (Demo.put_users [("1001", None)])) true)
  = Panicked (initial (Some (Demo.put_users [("1001", None)])) true).
Proof. vm_compute. reflexivity. Qed.

Lemma messageCreate_ignores_witness :
  messageCreate "bot" (Demo.says "!MyGames") Demo.resumed
  = Returned None Demo.resumed.
Proof.
  apply (messageCreate_ignores "bot" (Demo.says "!MyGames") Demo.resumed).
  right. split; discriminate.
Defined.

Lemma cleargames_unknown_user_witness :
  messageCreate "bot" (Demo.says "!cleargames") (initial None true)
  = Returned (Some NothingToClear) (initial None true).
Proof.
  apply (cleargames_unknown_user "bot" (Demo.says "!cleargames")
           (initial None true)).
  - discriminate.
  - reflexivity.
  - reflexivity.
  - reflexivity.
Defined.

Lemma held_mutex_excludes_witness :
  run (OnPresence (Demo.playing ["Go"])) (set_mu true Demo.started)
  = set_mu true Demo.started.
Proof.
  apply (held_mutex_excludes (OnPresence (Demo.playing ["Go"]))
           (set_mu true Demo.started)).
  reflexivity.
Defined.

Lemma quiet_update_tracks_snapshot_witness :
  ∃ w',
    presenceUpdate (Demo.playing ["Go"; "Chess"; "Go"]) Demo.started
    = Returned tt w' ∧
    dom (active_of "1001" w') = gameNames (Demo.playing ["Go"; "Chess"; "Go"]) ∧
    sessions_of "1001" w' = sessions_of "1001" Demo.started ∧
    (∀ gameName startTime,
       active_of "1001" Demo.started !! gameName = Some startTime →
       active_of "1001" w' !! gameName = Some startTime) ∧
    (∀ gameName startTime,
       active_of "1001" w' !! gameName = Some startTime →
       active_of "1001" Demo.started !! gameName = None →
       ∃ k, (ticks Demo.started ≤ k < ticks w')%nat ∧ startTime = time_Now k) ∧
    mu w' = false.
Proof.
  apply (quiet_update_tracks_snapshot (Demo.playing ["Go"; "Chess"; "Go"])
           Demo.started).
  - reflexivity.
  - reflexivity.
  - intros gameName startTime Hopen.
    change (active_of (ID (PresenceUser (Demo.playing ["Go"; "Chess"; "Go"])))
              Demo.started)
      with ({[ "Chess" := 1000000000 ]} : gmap string Z) in Hopen.
    apply lookup_singleton_Some in Hopen as [<- _]. vm_compute. reflexivity.
Defined.

Lemma handlers_touch_one_user_witness :
  Users (world_of (presenceUpdate (Demo.playing []) Demo.started)) !! "7"
  = Users Demo.started !! "7"
  ∧ Users (world_of (messageCreate "bot" (Demo.says "!cleargames") Demo.started))
      !! "7"
    = Users Demo.started !! "7".
Proof.
  destruct (handlers_touch_one_user (RT:=Demo.runtime) "7") as [Hpresence Hmessage].
  split.
  - apply (Hpresence (Demo.playing []) Demo.started). discriminate.
  - apply (Hmessage "bot" (Demo.says "!cleargames") Demo.started). discriminate.
Defined.

Lemma report_lists_sessions_and_timers_witness :
  ∃ gamePlayTimes w',
    messageCreate "bot" (Demo.says "!mygames") Demo.resumed
    = Returned (Some (PlayTimes gamePlayTimes)) w' ∧
    dom gamePlayTimes
    = list_to_set
        (GameName
           <$> Sessions {| Sessions := [Demo.chess];
                           ActiveGames := {[ "Go" := 1000000000 ]} |})
      ∪ dom (ActiveGames {| Sessions := [Demo.chess];
                            ActiveGames := {[ "Go" := 1000000000 ]} |}).
Proof.
  apply (report_lists_sessions_and_timers "bot" (Demo.says "!mygames")
           Demo.resumed).
  - discriminate.
  - reflexivity.
  - reflexivity.
  - reflexivity.
  - discriminate.
Defined.

Lemma sessionTotals_sum_witness :
  sessionTotals [Demo.chess; Demo.blitz 0; Demo.chess] !! "Chess"
  = Some (Int64.wrap
            (sumWholeSeconds "Chess" [Demo.chess; Demo.blitz 0; Demo.chess]))
  ∧ sessionTotals [Demo.chess; Demo.blitz 0; Demo.chess] !! "Go" = None.
Proof.
  destruct (sessionTotals_sum [Demo.chess; Demo.blitz 0; Demo.chess] "Chess")
    as [Hin _].
  destruct (sessionTotals_sum [Demo.chess; Demo.blitz 0; Demo.chess] "Go")
    as [_ Hnotin].
  split.
  - apply Hin. by left.
  - apply Hnotin. intros Hgo. repeat (apply elem_of_cons in Hgo as [Hgo|Hgo];
      [discriminate|]). by apply elem_of_nil in Hgo.
Defined.

Lemma load_merges_file_witness :
  ∃ w',
    load (set_file (Some Demo.saved) Demo.started) = Returned None w' ∧
    (∀ userID,
       Users w' !! userID
       = match ({[ "1001" := Some [Demo.chess] ]}
                  : gmap string (option (list GameSession))) !! userID with
         | Some (Some sessions) =>
             Some {| Sessions := sessions; ActiveGames := ∅ |}
         | _ => Users (set_file (Some Demo.saved) Demo.started) !! userID
         end) ∧
    mu w' = false ∧
    file w' = file (set_file (Some Demo.saved) Demo.started) ∧
    ticks w' = ticks (set_file (Some Demo.saved) Demo.started).
Proof.
  apply (load_merges_file (set_file (Some Demo.saved) Demo.started) Demo.saved).
  - reflexivity.
  - reflexivity.
  - reflexivity.
  - vm_compute. reflexivity.
  - intros userID record Hrecord.
    apply lookup_singleton_Some in Hrecord as [_ <-]. by eexists.
Defined.

Lemma init_boots_witness :
  match init "token" (Some Demo.garbage) true with
  | Fatal => False
  | Booted (Blocked _) => False
  | Booted (Returned e w) =>
      mu w = false ∧ ticks w = 0%nat ∧ file w = Some Demo.garbage ∧
      (∀ userID r, Users w !! userID = Some r → ActiveGames r = ∅) ∧
      (e ≠ None → Users w = ∅)
  | Booted (Panicked w) =>
      ∃ dataBytes tempUsers userID,
        Some Demo.garbage = Some dataBytes ∧
        json_Unmarshal dataBytes = Some tempUsers ∧
        tempUsers !! userID = Some None
  end.
Proof.
  apply (proj2 (init_boots "token" (Some Demo.garbage) true)). discriminate.
Defined.


Lemma formatDuration_whole_units_witness :
  formatDuration (90 * Second) = clockText 90
  ∧ formatDuration (1500 * Minute) = clockText (1500 * 60)
  ∧ formatDuration (49 * Hour) = clockText (49 * 3600).
Proof.
  destruct formatDuration_whole_units as (Hseconds & Hminutes & Hhours).
  split; [|split].
  - apply Hseconds. lia.
  - apply Hminutes. lia.
  - apply Hhours. lia.
Defined.

Lemma replyText_lists_games_witness :
  occurs_in (reportLine ("Chess", 90 * Second))
    (replyText "alice" (PlayTimes {[ "Chess" := 90 * Second; "Go" := 5 ]})) ∧
  ∃ rest,
    replyText "alice" (PlayTimes {[ "Chess" := 90 * Second; "Go" := 5 ]})
    = ("Here are your tracked game play times, " +:+ "alice" +:+ ":" +:+ newline)
      +:+ rest.
Proof.
  apply (replyText_lists_games "alice" {[ "Chess" := 90 * Second; "Go" := 5 ]}
           "Chess" (90 * Second)).
  vm_compute. reflexivity.
Defined.

(** What the fields of [formatDuration] can do near a whole hour: one
    nanosecond short of 4097 hours reads as 17 hours past 170 days, with 59
    minutes and 59 seconds. *)
Lemma formatDuration_rounds_hours_up :
  formatDuration (4097 * Hour - 1) = "170d 17h 59m 59s"
  ∧ formatDuration (-90 * Second) = "-30s".
Proof. split; vm_compute; reflexivity. Qed.
